(** * BSL Analyzer logo scripts: a shallow embedding

    The repository holds two stand-alone Python scripts,
    [create_hq_logo.py] and [create_logo_png.py], that paint a logo through
    the Pillow imaging library and save it as PNG files.

    The scripts' own code is embedded function by function.  Pillow is not
    part of the repository: an image is represented by the record of what was
    asked of the library (mode, allocated size, background, and the ordered
    list of draw, resize and filter requests).  The library's own checks are
    part of the model where a script can meet them: [Image.new] refuses a
    negative size and a size that does not fit a C [int]; [ellipse],
    [rectangle] and [rounded_rectangle] raise [ValueError] on a box whose
    second corner lies before the first; loading a TrueType font and saving
    a file fail when the environment says so.  An exception leaves the
    function that met it, as in Python.

    Pixels are modelled only as far as the scripts fix them: a [Draw] object
    made for an RGBA image writes its ink into the pixels a shape covers, and
    which pixels a shape covers is decided only away from its boundary.

    Python's float arithmetic is binary64.  Where the operands are fixed by
    the code (the fifty gradient steps of [create_hq_bsl_logo]) it is
    embedded as such, with primitive floats; where they depend on the
    requested size ([create_bsl_logo]) the expressions are read over the
    rationals and that reading is checked against binary64 on a range of
    sizes. *)

From Stdlib Require Import ZArith List String Ascii Bool Lia QArith Qround.
From Stdlib Require Import Floats.PrimFloat Floats.FloatOps Floats.SpecFloat.
From Stdlib Require Import Numbers.Cyclic.Int63.Uint63.
From Stdlib Require Import Numbers.DecimalString.
Import ListNotations.

#[local] Set Warnings "-inexact-float".
#[local] Open Scope string_scope.
#[local] Open Scope Z_scope.

(** ** Python built-ins used by the scripts *)

Module Py.

(** [range(n)]: 0, 1, ..., n-1; empty when [n <= 0]. *)
Definition range (n : Z) : list Z := map Z.of_nat (seq 0 (Z.to_nat n)).

(** [len(l)]. *)
Definition len {A} (l : list A) : Z := Z.of_nat (List.length l).

(** [l[i]] for an index the caller keeps in range. *)
Definition item {A} (d : A) (l : list A) (i : Z) : A := nth (Z.to_nat i) l d.

(** [str(n)] for an integer. *)
Definition str (n : Z) : string := NilZero.string_of_int (Z.to_int n).

(** Conversion of an [int] operand to [float] (binary64).  Exact below
    2^53 in absolute value, which covers every operand of the scripts. *)
Definition float_of_int (z : Z) : float :=
  if z <? 0 then PrimFloat.opp (PrimFloat.of_uint63 (Uint63.of_Z (- z)))
  else PrimFloat.of_uint63 (Uint63.of_Z z).

(** [int(x)] for a float: truncation toward zero. *)
Definition int_of_float (x : float) : Z :=
  match Prim2SF x with
  | S754_finite s m e =>
      let mag := if 0 <=? e then Z.pos m * 2 ^ e else Z.pos m / 2 ^ (- e) in
      if s then - mag else mag
  | _ => 0
  end.

(** [a / b] on two ints: true division. *)
Definition truediv (a b : Z) : float :=
  PrimFloat.div (float_of_int a) (float_of_int b).

(** [int(q)] for an exact rational: truncation toward zero. *)
Definition int_of_Q (q : Q) : Z := Z.quot (Qnum q) (Z.pos (Qden q)).

End Py.

(** ** Computations that may raise *)

Inductive exn :=
| OSError (path : string)
| ValueError (message : string)
| OverflowError (message : string).

Inductive outcome (A : Type) :=
| Returned (a : A)
| Raised (e : exn).
Arguments Returned {A} a.
Arguments Raised {A} e.

(** A computation over a state [S]: it returns or raises, and leaves a
    state behind either way. *)
Definition M (S A : Type) : Type := S -> outcome A * S.

Definition ret {S A} (a : A) : M S A := fun s => (Returned a, s).

Definition bind {S A B} (m : M S A) (k : A -> M S B) : M S B :=
  fun s =>
    match m s with
    | (Returned a, s') => k a s'
    | (Raised e, s') => (Raised e, s')
    end.

Definition raise {S A} (e : exn) : M S A := fun s => (Raised e, s).

(** [try: m  except: h] with a bare [except]. *)
Definition try_except {S A} (m : M S A) (h : M S A) : M S A :=
  fun s =>
    match m s with
    | (Returned a, s') => (Returned a, s')
    | (Raised _, s') => h s'
    end.

Notation "x <- m ;; k" := (bind m (fun x => k))
  (at level 61, m at next level, right associativity).
Notation "m ;;; k" := (bind m (fun _ => k))
  (at level 61, right associativity).

(** [for x in l: body x]. *)
Fixpoint for_each {S A} (l : list A) (body : A -> M S unit) : M S unit :=
  match l with
  | [] => ret tt
  | x :: l' => body x ;;; for_each l' body
  end.

(** [for x in l: acc = body acc x], for a loop that grows a local value. *)
Fixpoint for_fold {S A B} (l : list A) (acc : B) (body : B -> A -> M S B) : M S B :=
  match l with
  | [] => ret acc
  | x :: l' => acc' <- body acc x ;; for_fold l' acc' body
  end.

(** ** The imaging library, as a log of requests *)

Module PIL.

Definition color : Type := Z * Z * Z * Z.
Definition point : Type := Z * Z.
(** A bounding box [[x0, y0, x1, y1]]. *)
Definition box : Type := Z * Z * Z * Z.

Inductive image_mode := RGBA | RGB | L.

Inductive font :=
| FreeTypeFont (path : string) (size : Z)
| DefaultFont.

Inductive resampling := NEAREST | BOX | BILINEAR | HAMMING | BICUBIC | LANCZOS.

Inductive image_filter :=
| UnsharpMask (radius : Q) (percent threshold : Z).

(** One call on an [ImageDraw.Draw] object, with the keyword arguments the
    scripts pass; an argument left out is [None]. *)
Inductive draw_op :=
| Ellipse (xy : box) (fill outline : option color) (width : option Z)
| Line (xy : list point) (fill : option color) (width : option Z)
| Rectangle (xy : box) (fill outline : option color) (width : option Z)
| RoundedRectangle (xy : box) (radius : Z) (fill outline : option color)
    (width : option Z)
| Text (xy : point) (text : string) (fill : option color) (fnt : option font)
    (anchor : option string).

(** An entry of an image's history.  [Drawn op] records that [op] was
    called on the image's [Draw] object; a call the library refuses is the
    last entry of the history it was made on. *)
Inductive step :=
| Drawn (op : draw_op)
| Resized (size : Z * Z) (resample : resampling)
| Filtered (f : image_filter).

Record image := mkImage {
  mode : image_mode;
  allocated : Z * Z;
  background : color;
  steps : list step
}.

(** The largest value of a C [int], the type of the two sides of an image
    in the library's core. *)
Definition max_side : Z := 2147483647.

(** [Image.new(mode, size, color)]: a negative side is refused with
    [ValueError], a side that does not fit a C [int] with [OverflowError]. *)
Definition Image_new {S} (m : image_mode) (size : Z * Z) (c : color) : M S image :=
  let '(width, height) := size in
  if (width <? 0) || (height <? 0)
  then raise (ValueError "Width and height must be >= 0")
  else if (max_side <? width) || (max_side <? height)
  then raise (OverflowError "Python int too large to convert to C int")
  else ret (mkImage m size c []).

Definition then_ (s : step) (img : image) : image :=
  mkImage (mode img) (allocated img) (background img) (steps img ++ [s]).

(** The check [ellipse], [rectangle] and [rounded_rectangle] make on their
    box [[x0, y0, x1, y1]] before painting. *)
Definition box_error (b : box) : option exn :=
  let '(x0, y0, x1, y1) := b in
  if x1 <? x0 then Some (ValueError "x1 must be greater than or equal to x0")
  else if y1 <? y0 then Some (ValueError "y1 must be greater than or equal to y0")
  else None.

(** The exception a draw call raises instead of painting, if any. *)
Definition refusal (op : draw_op) : option exn :=
  match op with
  | Ellipse xy _ _ _ | Rectangle xy _ _ _ | RoundedRectangle xy _ _ _ _ =>
      box_error xy
  | Line _ _ _ | Text _ _ _ _ _ => None
  end.

(** Code that paints through a [Draw] object: the state is the image the
    object was made for, which every call mutates. *)
Definition Draw (A : Type) : Type := M image A.

(** One call on the [Draw] object. *)
Definition draw (op : draw_op) : Draw unit :=
  fun img =>
    match refusal op with
    | Some e => (Raised e, then_ (Drawn op) img)
    | None => (Returned tt, then_ (Drawn op) img)
    end.

(** [draw = ImageDraw.Draw(img)] followed by [body], code that paints
    through [draw]: when [body] returns, [img] is the image as painted; an
    exception leaves the calling function, and the image with it. *)
Definition ImageDraw_Draw {S} (img : image) (body : Draw unit) : M S image :=
  fun s =>
    match body img with
    | (Returned _, img') => (Returned img', s)
    | (Raised e, _) => (Raised e, s)
    end.

(** [img.resize(size, resample)]. *)
Definition Image_resize (size : Z * Z) (r : resampling) (img : image) : image :=
  then_ (Resized size r) img.

(** [img.filter(f)]. *)
Definition Image_filter (f : image_filter) (img : image) : image :=
  then_ (Filtered f) img.

(** [img.size]: the allocated size, or that of the last resize. *)
Definition size_after (sz : Z * Z) (s : step) : Z * Z :=
  match s with
  | Resized sz' _ => sz'
  | Drawn _ | Filtered _ => sz
  end.

Definition Image_size (img : image) : Z * Z :=
  fold_left size_after (steps img) (allocated img).

(** The draw calls of an image's history, in paint order. *)
Definition draw_ops (img : image) : list draw_op :=
  flat_map (fun s => match s with Drawn op => [op] | _ => [] end) (steps img).

Definition resizes (img : image) : list (Z * Z * resampling) :=
  flat_map (fun s => match s with Resized sz r => [(sz, r)] | _ => [] end)
           (steps img).

Definition filters (img : image) : list image_filter :=
  flat_map (fun s => match s with Filtered f => [f] | _ => [] end) (steps img).

End PIL.
Import PIL.

(** ** The process environment: fonts, file system, console *)

Inductive event :=
| Printed (line : string)
| FileSaved (filename : string) (img : image) (format : string) (optimize : bool)
| SaveFailed (filename : string)
| FileRemoved (filename : string).

(** What a run can observe or change.  [truetype_fonts] tells which font
    resources load, [writable] which paths can be written; [clock] and
    [entropy] stand for the time and randomness sources of the process;
    [trace] is the ordered record of console and file-system effects. *)
Record world := mkWorld {
  truetype_fonts : string -> bool;
  writable : string -> bool;
  clock : Z;
  entropy : list Z;
  trace : list event
}.

Definition emit (e : event) (w : world) : world :=
  mkWorld (truetype_fonts w) (writable w) (clock w) (entropy w) (trace w ++ [e]).

Definition io (A : Type) : Type := M world A.

(** [ImageFont.truetype(path, size)]. *)
Definition ImageFont_truetype (path : string) (size : Z) : io font :=
  fun w =>
    if truetype_fonts w path then (Returned (FreeTypeFont path size), w)
    else (Raised (OSError path), w).

(** [ImageFont.load_default()]. *)
Definition ImageFont_load_default : io font := ret DefaultFont.

(** [img.save(filename, format, optimize=...)]. *)
Definition Image_save (filename format : string) (optimize : bool) (img : image)
  : io unit :=
  fun w =>
    if writable w filename
    then (Returned tt, emit (FileSaved filename img format optimize) w)
    else (Raised (OSError filename), emit (SaveFailed filename) w).

(** [print(line)]. *)
Definition print (line : string) : io unit :=
  fun w => (Returned tt, emit (Printed line) w).

(** ** create_hq_logo.py *)

Module create_hq_logo.

(** [create_smooth_circle(draw, center, radius, color, width=0)]. *)
Definition create_smooth_circle (center : point) (radius : Z) (c : color)
    (width : Z) : Draw unit :=
  let '(x, y) := center in
  if width =? 0
  then draw (Ellipse (x - radius, y - radius, x + radius, y + radius)
                     (Some c) None None)
  else draw (Ellipse (x - radius, y - radius, x + radius, y + radius)
                     None (Some c) (Some width)).

(** [create_smooth_line(draw, start, end, color, width=3)]. *)
Definition create_smooth_line (start end_ : point) (c : color) (width : Z)
  : Draw unit :=
  draw (Line [start; end_] (Some c) (Some width)).

(** The local [left_points] of [create_hq_bsl_logo]. *)
Definition left_points (center : Z) : list point :=
  [ (center - 80, center - 100);
    (center - 120, center - 100);
    (center - 120, center - 60);
    (center - 100, center - 40);
    (center - 120, center - 20);
    (center - 120, center + 20);
    (center - 100, center + 40);
    (center - 120, center + 60);
    (center - 120, center + 100);
    (center - 80, center + 100) ].

(** [right_points = [(center + (center - x), y) for x, y in left_points]]. *)
Definition right_points (center : Z) : list point :=
  map (fun '(x, y) => (center + (center - x), y)) (left_points center).

(** The local [points] (marker positions). *)
Definition points (center : Z) : list point :=
  [ (center, center - 32);
    (center - 32, center);
    (center + 32, center);
    (center, center + 32) ].

(** The local [connections]. *)
Definition connections (center : Z) : list (point * point) :=
  [ ((center, center - 20), (center - 20, center));
    ((center - 20, center), (center, center + 20));
    ((center, center + 20), (center + 20, center));
    ((center + 20, center), (center, center - 20)) ].

(** One iteration of the gradient loop:
    [alpha = int(255 * (gradient_steps - i) / gradient_steps * 0.9)],
    [progress = i / gradient_steps], the three channels, the radius and the
    guarded draw.  The arithmetic on [alpha], [progress], [r], [g], [b] is
    Python's binary64 arithmetic. *)
Definition gradient_alpha (gradient_steps i : Z) : Z :=
  Py.int_of_float
    (Py.truediv (255 * (gradient_steps - i)) gradient_steps * 0.9)%float.

Definition gradient_channel (from to : Z) (progress : float) : Z :=
  Py.int_of_float
    (Py.float_of_int from - Py.float_of_int (from - to) * progress)%float.

Definition gradient_iteration (center radius gradient_steps i : Z) : Draw unit :=
  let alpha := gradient_alpha gradient_steps i in
  let progress := Py.truediv i gradient_steps in
  let r := gradient_channel 206 139 progress in
  let g := gradient_channel 66 44 progress in
  let b := gradient_channel 43 27 progress in
  let current_radius := radius - i * radius / gradient_steps in
  if 0 <? current_radius
  then create_smooth_circle (center, center) current_radius (r, g, b, alpha) 0
  else ret tt.

(** Lines 29 to 135 of [create_hq_bsl_logo]: everything painted before the
    font is looked up. *)
Definition paint_composition (work_size : Z) : Draw unit :=
  let center := work_size / 2 in
  let radius := work_size / 2 - 32 in
  (* gradient disk *)
  let gradient_steps := 50 in
  for_each (Py.range gradient_steps)
           (fun i => gradient_iteration center radius gradient_steps i) ;;;
  (* inner outline *)
  let inner_radius := radius - 32 in
  create_smooth_circle (center, center) inner_radius (255, 255, 255, 40) 4 ;;;
  (* brackets *)
  let bracket_width := 12 in
  let bracket_color := (255, 255, 255, 255) in
  let left_points := left_points center in
  for_each (Py.range (Py.len left_points - 1))
           (fun i =>
              create_smooth_line (Py.item (0, 0) left_points i)
                                 (Py.item (0, 0) left_points (i + 1))
                                 bracket_color bracket_width) ;;;
  let right_points := right_points center in
  for_each (Py.range (Py.len right_points - 1))
           (fun i =>
              create_smooth_line (Py.item (0, 0) right_points i)
                                 (Py.item (0, 0) right_points (i + 1))
                                 bracket_color bracket_width) ;;;
  (* marker dots with shadow and highlight *)
  let dot_radius := 12 in
  let dot_color := (0, 122, 204, 255) in
  let shadow_color := (0, 100, 180, 100) in
  for_each (points center)
           (fun point : point =>
              create_smooth_circle (fst point + 2, snd point + 2) (dot_radius + 1)
                                   shadow_color 0 ;;;
              create_smooth_circle point dot_radius dot_color 0 ;;;
              create_smooth_circle (fst point - 3, snd point - 3) (dot_radius / 3)
                                   (255, 255, 255, 150) 0) ;;;
  (* connective strokes *)
  let line_color := (255, 255, 255, 200) in
  let line_width := 6 in
  for_each (connections center)
           (fun '(start, end_) =>
              create_smooth_line start end_ line_color line_width) ;;;
  (* gear badge *)
  let gear_center := (center + 120, center + 120) in
  let gear_outer := 16 in
  let gear_inner := 8 in
  create_smooth_circle (fst gear_center + 2, snd gear_center + 2)
                       (gear_outer + 2) (0, 0, 0, 100) 0 ;;;
  create_smooth_circle gear_center gear_outer (255, 255, 255, 230) 0 ;;;
  create_smooth_circle gear_center gear_inner (206, 66, 43, 200) 0 ;;;
  create_smooth_circle gear_center (gear_inner / 2) (255, 255, 255, 255) 0 ;;;
  (* text badge *)
  let text_center := (center + 120, center - 120) in
  let rect_size := 32 in
  draw (RoundedRectangle
          (fst text_center - rect_size, snd text_center - rect_size,
           fst text_center + rect_size, snd text_center + rect_size)
          8 (Some (255, 255, 255, 60)) (Some (255, 255, 255, 120)) (Some 2)).

(** Lines 144 to 149: the badge text and its shadow. *)
Definition paint_text (work_size : Z) (fnt : font) : Draw unit :=
  let center := work_size / 2 in
  let text_center := (center + 120, center - 120) in
  let text := "1C" in
  draw (Text (fst text_center + 2, snd text_center + 2) text
             (Some (0, 0, 0, 100)) (Some fnt) (Some "mm")) ;;;
  draw (Text text_center text (Some (255, 255, 255, 255)) (Some fnt)
             (Some "mm")).

(** [create_hq_bsl_logo(size=128)].  The one [Draw] object of the source is
    used before and after the font lookup. *)
Definition create_hq_bsl_logo (size : Z) : io image :=
  let scale := 4 in
  let work_size := size * scale in
  img <- Image_new RGBA (work_size, work_size) (0, 0, 0, 0) ;;
  img <- ImageDraw_Draw img (paint_composition work_size) ;;
  let font_size := 40 in
  fnt <- try_except (ImageFont_truetype "arial.ttf" font_size)
                    ImageFont_load_default ;;
  img <- ImageDraw_Draw img (paint_text work_size fnt) ;;
  (* downsample and sharpen *)
  let img := Image_resize (size, size) LANCZOS img in
  let img := Image_filter (UnsharpMask (1 # 2) 120 2) img in
  ret img.

(** Lines 194 to 207 of [create_simplified_logo]: what it paints. *)
Definition paint_simplified (size : Z) : Draw unit :=
  let center := size / 2 in
  let radius := size / 2 - 2 in
  draw (Ellipse (2, 2, size - 2, size - 2) (Some (206, 66, 43, 255)) None None) ;;;
  let bracket_width := Z.max 1 (size / 16) in
  draw (Rectangle (center / 2, center / 2,
                   center / 2 + bracket_width, center + center / 2)
                  (Some (255, 255, 255, 255)) None None) ;;;
  draw (Rectangle (center + center / 2, center / 2,
                   center + center / 2 + bracket_width, center + center / 2)
                  (Some (255, 255, 255, 255)) None None) ;;;
  let dot_size := Z.max 1 (size / 8) in
  draw (Ellipse (center - dot_size, center - dot_size,
                 center + dot_size, center + dot_size)
                (Some (0, 122, 204, 255)) None None).

(** [create_simplified_logo(size)]. *)
Definition create_simplified_logo (size : Z) : io image :=
  img <- Image_new RGBA (size, size) (0, 0, 0, 0) ;;
  img <- ImageDraw_Draw img (paint_simplified size) ;;
  ret img.

(** The [sizes] dict of [create_optimized_icons], in insertion order. *)
Definition sizes : list (Z * string) :=
  [ (16, "small"); (24, "medium"); (32, "large"); (48, "xlarge"); (128, "icon") ].

(** The branch at the head of the loop body of [create_optimized_icons]:
    [if size <= 24: logo = create_simplified_logo(size)
     else: logo = create_hq_bsl_logo(size)]. *)
Definition select_logo (size : Z) : io image :=
  if size <=? 24 then create_simplified_logo size
  else create_hq_bsl_logo size.

(** [create_optimized_icons()]. *)
Definition create_optimized_icons : io (list string) :=
  let icons_created : list string := [] in
  icons_created <-
    for_fold sizes icons_created
      (fun icons_created '(size, suffix) =>
         print ("Creating " ++ Py.str size ++ "x" ++ Py.str size ++ " icon...") ;;;
         logo <- select_logo size ;;
         let filename :=
           "vscode-extension/images/bsl-analyzer-" ++ suffix ++ ".png" in
         Image_save filename "PNG" true logo ;;;
         let icons_created :=
           (icons_created
              ++ [(Py.str size ++ "x" ++ Py.str size ++ " -> " ++ filename)%string])%list
         in
         print ("  Saved: " ++ filename) ;;;
         ret icons_created) ;;
  ret icons_created.

Definition newline : string := String (ascii_of_nat 10) "".

(** The [if __name__ == "__main__":] block. *)
Definition main : io unit :=
  print "Creating high-quality BSL Analyzer icons..." ;;;
  main_logo <- create_hq_bsl_logo 128 ;;
  Image_save "vscode-extension/images/bsl-analyzer-logo.png" "PNG" true main_logo ;;;
  print "Main logo created: bsl-analyzer-logo.png" ;;;
  icons <- create_optimized_icons ;;
  print (newline ++ "Successfully created " ++ Py.str (Py.len icons + 1)
                 ++ " high-quality icons:") ;;;
  print "  - bsl-analyzer-logo.png (128x128)" ;;;
  for_each icons (fun icon => print ("  - " ++ icon)) ;;;
  print (newline ++ "Features:") ;;;
  print "  + High-quality anti-aliasing" ;;;
  print "  + Smooth gradients and shadows" ;;;
  print "  + Optimized for different sizes" ;;;
  print "  + Professional appearance in VSCode".

End create_hq_logo.

(** ** create_logo_png.py *)

Module create_logo_png.

(** The local [bracket_points_left] of [create_bsl_logo]. *)
Definition bracket_points_left (center : Z) : list point :=
  [ (center - 20, center - 25); (center - 30, center - 25); (center - 30, center - 15);
    (center - 25, center - 10); (center - 30, center - 5); (center - 30, center + 5);
    (center - 25, center + 10); (center - 30, center + 15); (center - 30, center + 25);
    (center - 20, center + 25) ].

(** The local [bracket_points_right]. *)
Definition bracket_points_right (center : Z) : list point :=
  [ (center + 20, center - 25); (center + 30, center - 25); (center + 30, center - 15);
    (center + 25, center - 10); (center + 30, center - 5); (center + 30, center + 5);
    (center + 25, center + 10); (center + 30, center + 15); (center + 30, center + 25);
    (center + 20, center + 25) ].

(** The local [points]. *)
Definition points (center : Z) : list point :=
  [ (center, center - 8);
    (center - 8, center);
    (center + 8, center);
    (center, center + 8) ].

(** The local [connections]. *)
Definition connections (center : Z) : list (point * point) :=
  [ ((center, center - 5), (center - 5, center));
    ((center - 5, center), (center, center + 5));
    ((center, center + 5), (center + 5, center));
    ((center + 5, center), (center, center - 5)) ].

(** One iteration of the gradient loop.  [radius] is a run-time value here,
    so the float expressions [int(255 * (radius - i) / radius)] and
    [int(206 - (206 - 139) * i / radius)] are read over the rationals;
    [gradient_binary64_agrees] below checks this reading against binary64
    arithmetic. *)
Definition gradient_alpha (radius i : Z) : Z :=
  Py.int_of_Q (inject_Z (255 * (radius - i)) / inject_Z radius)%Q.

Definition gradient_channel (from to radius i : Z) : Z :=
  Py.int_of_Q (inject_Z from - inject_Z ((from - to) * i) / inject_Z radius)%Q.

Definition gradient_iteration (center radius i : Z) : Draw unit :=
  let alpha := gradient_alpha radius i in
  let r := gradient_channel 206 139 radius i in
  let g := gradient_channel 66 44 radius i in
  let b := gradient_channel 43 27 radius i in
  draw (Ellipse (center - radius + i, center - radius + i,
                 center + radius - i, center + radius - i)
                (Some (r, g, b, alpha)) None None).

(** Lines 14 to 91 of [create_bsl_logo]: everything painted before the font
    is looked up. *)
Definition paint_composition (size : Z) : Draw unit :=
  let center := size / 2 in
  let radius := size / 2 - 8 in
  (* gradient disk *)
  for_each (Py.range radius) (fun i => gradient_iteration center radius i) ;;;
  (* inner circle *)
  let inner_radius := radius - 8 in
  draw (Ellipse (center - inner_radius, center - inner_radius,
                 center + inner_radius, center + inner_radius)
                None (Some (255, 255, 255, 50)) (Some 1)) ;;;
  (* brackets *)
  let bracket_points_left := bracket_points_left center in
  let bracket_points_right := bracket_points_right center in
  for_each (Py.range (Py.len bracket_points_left - 1))
           (fun i =>
              draw (Line [Py.item (0, 0) bracket_points_left i;
                          Py.item (0, 0) bracket_points_left (i + 1)]
                         (Some (255, 255, 255, 255)) (Some 3)) ;;;
              draw (Line [Py.item (0, 0) bracket_points_right i;
                          Py.item (0, 0) bracket_points_right (i + 1)]
                         (Some (255, 255, 255, 255)) (Some 3))) ;;;
  (* marker dots *)
  for_each (points center)
           (fun point : point =>
              draw (Ellipse (fst point - 3, snd point - 3,
                             fst point + 3, snd point + 3)
                            (Some (0, 122, 204, 255)) None None)) ;;;
  (* connective strokes *)
  for_each (connections center)
           (fun '(start, end_) =>
              draw (Line [start; end_] (Some (255, 255, 255, 200)) (Some 2))) ;;;
  (* gear *)
  let gear_center := (center + 30, center + 30) in
  let gear_radius := 4 in
  draw (Ellipse (fst gear_center - gear_radius, snd gear_center - gear_radius,
                 fst gear_center + gear_radius, snd gear_center + gear_radius)
                (Some (255, 255, 255, 230)) None None) ;;;
  let gear_inner := 2 in
  draw (Ellipse (fst gear_center - gear_inner, snd gear_center - gear_inner,
                 fst gear_center + gear_inner, snd gear_center + gear_inner)
                (Some (206, 66, 43, 200)) None None) ;;;
  (* text badge *)
  let text_center := (center + 30, center - 30) in
  draw (Rectangle (fst text_center - 8, snd text_center - 8,
                   fst text_center + 8, snd text_center + 8)
                  (Some (255, 255, 255, 50)) None None).

(** Line 99: the badge text. *)
Definition paint_text (size : Z) (fnt : font) : Draw unit :=
  let center := size / 2 in
  let text_center := (center + 30, center - 30) in
  draw (Text text_center "1C" (Some (255, 255, 255, 255)) (Some fnt)
             (Some "mm")).

(** [create_bsl_logo(size=128)].  The one [Draw] object of the source is
    used before and after the font lookup. *)
Definition create_bsl_logo (size : Z) : io image :=
  img <- Image_new RGBA (size, size) (0, 0, 0, 0) ;;
  img <- ImageDraw_Draw img (paint_composition size) ;;
  fnt <- try_except (ImageFont_truetype "arial.ttf" 10) ImageFont_load_default ;;
  img <- ImageDraw_Draw img (paint_text size fnt) ;;
  ret img.

(** The [if __name__ == "__main__":] block. *)
Definition main : io unit :=
  logo <- create_bsl_logo 128 ;;
  Image_save "vscode-extension/images/bsl-analyzer-logo.png" "PNG" false logo ;;;
  print "Logo created: vscode-extension/images/bsl-analyzer-logo.png" ;;;
  let sizes := [32; 64; 256] in
  for_each sizes
    (fun size =>
       logo_resized <- create_bsl_logo size ;;
       Image_save ("vscode-extension/images/bsl-analyzer-logo-" ++ Py.str size ++ ".png")
                  "PNG" false logo_resized ;;;
       print ("Logo " ++ Py.str size ++ "x" ++ Py.str size ++ " created")).

End create_logo_png.

(** * Reasoning about image histories *)

Section Histories.

(** Appending a list of draw calls to a history, in order. *)
Definition paint (ops : list draw_op) (img : image) : image :=
  mkImage (mode img) (allocated img) (background img)
          (steps img ++ map Drawn ops).

Lemma paint_paint a b img : paint b (paint a img) = paint (a ++ b)%list img.
Proof.
  unfold paint; cbn [mode allocated background steps].
  now rewrite map_app, app_assoc.
Qed.

Lemma paint_nil img : paint [] img = img.
Proof. destruct img; unfold paint; cbn. now rewrite app_nil_r. Qed.

Lemma draw_ops_paint ops img : draw_ops (paint ops img) = (draw_ops img ++ ops)%list.
Proof.
  unfold draw_ops, paint; cbn [steps].
  rewrite flat_map_app. f_equal.
  induction ops as [|op ops IH]; cbn; [reflexivity | now rewrite IH].
Qed.

(** The calls actually made when [ops] are called in order: those up to
    and including the first one the library refuses. *)
Fixpoint issued (ops : list draw_op) : list draw_op :=
  match ops with
  | [] => []
  | op :: rest =>
      op :: match refusal op with
            | None => issued rest
            | Some _ => []
            end
  end.

(** How calling [ops] in order ends. *)
Fixpoint verdict (ops : list draw_op) : outcome unit :=
  match ops with
  | [] => Returned tt
  | op :: rest =>
      match refusal op with
      | None => verdict rest
      | Some e => Raised e
      end
  end.

Lemma for_each_draw ops :
  forall img, for_each ops draw img = (verdict ops, paint (issued ops) img).
Proof.
  induction ops as [|op ops IH]; intros img; cbn [for_each issued verdict].
  - unfold ret. now rewrite paint_nil.
  - unfold bind, draw. destruct (refusal op) as [e|].
    + reflexivity.
    + rewrite IH. f_equal.
      change (then_ (Drawn op) img) with (paint [op] img). apply paint_paint.
Qed.

Lemma issued_accepted ops :
  Forall (fun op => refusal op = None) ops -> issued ops = ops /\ verdict ops = Returned tt.
Proof.
  induction 1 as [|op ops Hop _ [IHi IHv]]; cbn [issued verdict]; [now split|].
  rewrite Hop, IHi, IHv. now split.
Qed.

Lemma issued_refused pre op post e :
  Forall (fun op => refusal op = None) pre ->
  refusal op = Some e ->
  issued (pre ++ op :: post) = (pre ++ [op])%list
  /\ verdict (pre ++ op :: post) = Raised e.
Proof.
  intros Hpre Hop.
  induction Hpre as [|a pre Ha _ [IHi IHv]]; cbn [app issued verdict].
  - rewrite Hop. now split.
  - rewrite Ha, IHi, IHv. now split.
Qed.

(** Painting code that amounts to calling [ops] in order. *)
Definition issues (p : Draw unit) (ops : list draw_op) : Prop :=
  forall img, p img = for_each ops draw img.

Lemma issues_draw op : issues (draw op) [op].
Proof.
  intros img. cbn [for_each]. unfold bind, draw, ret.
  now destruct (refusal op).
Qed.

Lemma issues_ret : issues (ret tt) [].
Proof. intros img. reflexivity. Qed.

Lemma for_each_app {S A} (a b : list A) (f : A -> M S unit) s :
  for_each (a ++ b) f s = bind (for_each a f) (fun _ => for_each b f) s.
Proof.
  revert s. induction a as [|x a IH]; intros s; cbn [app for_each].
  - reflexivity.
  - unfold bind in *. destruct (f x s) as [[[]|e] s']; [apply IH | reflexivity].
Qed.

Lemma issues_seq p q a b :
  issues p a -> issues q b -> issues (p ;;; q) (a ++ b).
Proof.
  intros Hp Hq img. rewrite for_each_app. unfold bind. rewrite Hp.
  destruct (for_each a draw img) as [[[]|e] img']; [apply Hq | reflexivity].
Qed.

Lemma issues_for_each {A} (body : A -> Draw unit) (g : A -> list draw_op) l :
  (forall x, issues (body x) (g x)) ->
  issues (for_each l body) (flat_map g l).
Proof.
  intros H. induction l as [|x l IH]; cbn [for_each flat_map].
  - apply issues_ret.
  - now apply issues_seq.
Qed.

Lemma issues_eq p a b : issues p a -> a = b -> issues p b.
Proof. now intros H <-. Qed.

(** Painting through a [Draw] object, when every call is accepted and
    when one is refused. *)
Lemma ImageDraw_Draw_returns {S} body ops img (s : S) :
  issues body ops ->
  Forall (fun op => refusal op = None) ops ->
  ImageDraw_Draw img body s = (Returned (paint ops img), s).
Proof.
  intros Hb Hops. unfold ImageDraw_Draw. rewrite Hb, for_each_draw.
  destruct (issued_accepted ops Hops) as [-> ->]. reflexivity.
Qed.

Lemma ImageDraw_Draw_raises {S} body pre op post e img (s : S) :
  issues body (pre ++ op :: post) ->
  Forall (fun op => refusal op = None) pre ->
  refusal op = Some e ->
  ImageDraw_Draw img body s = (Raised e, s).
Proof.
  intros Hb Hpre Hop. unfold ImageDraw_Draw. rewrite Hb, for_each_draw.
  destruct (issued_refused pre op post e Hpre Hop) as [_ ->]. reflexivity.
Qed.

Lemma Image_new_run {S} m a b c (s : S) :
  0 <= a <= max_side -> 0 <= b <= max_side ->
  Image_new m (a, b) c s = (Returned (mkImage m (a, b) c []), s).
Proof.
  intros Ha Hb. unfold Image_new.
  destruct (Z.ltb_spec a 0), (Z.ltb_spec b 0); try lia.
  destruct (Z.ltb_spec max_side a), (Z.ltb_spec max_side b); try lia.
  reflexivity.
Qed.

End Histories.

(** The bounding boxes a draw call passes to the library. *)
Definition box_of (op : draw_op) : list box :=
  match op with
  | Ellipse xy _ _ _ | Rectangle xy _ _ _ | RoundedRectangle xy _ _ _ _ => [xy]
  | Line _ _ _ | Text _ _ _ _ _ => []
  end.

(** A box [[x0, y0, x1, y1]] is well formed when [x0 <= x1] and [y0 <= y1]. *)
Definition well_formed (b : box) : Prop :=
  let '(x0, y0, x1, y1) := b in x0 <= x1 /\ y0 <= y1.

Lemma box_error_none b : box_error b = None <-> well_formed b.
Proof.
  destruct b as [[[x0 y0] x1] y1]. unfold box_error, well_formed.
  destruct (Z.ltb_spec x1 x0), (Z.ltb_spec y1 y0); split;
    solve [discriminate | lia | reflexivity | intros [? ?]; lia].
Qed.

(** The library accepts exactly the calls whose boxes are well formed. *)
Lemma refusal_none op : refusal op = None <-> Forall well_formed (box_of op).
Proof.
  destruct op; cbn [refusal box_of];
    try (split; [constructor | reflexivity]);
    rewrite box_error_none; split;
    solve [ intros H; now repeat constructor | intros H; now apply Forall_inv in H ].
Qed.

Lemma refusal_x b :
  (let '(x0, _, x1, _) := b in x1 < x0) ->
  box_error b = Some (ValueError "x1 must be greater than or equal to x0").
Proof.
  destruct b as [[[x0 y0] x1] y1]. intros H. unfold box_error.
  now destruct (Z.ltb_spec x1 x0); [|lia].
Qed.

(** The font the [try]/[except] around [ImageFont.truetype("arial.ttf", n)]
    leaves in [font]. *)
Definition loaded_font (w : world) (n : Z) : font :=
  if truetype_fonts w "arial.ttf" then FreeTypeFont "arial.ttf" n else DefaultFont.

Lemma load_font_run n w :
  try_except (ImageFont_truetype "arial.ttf" n) ImageFont_load_default w
  = (Returned (loaded_font w n), w).
Proof.
  unfold try_except, ImageFont_truetype, ImageFont_load_default, ret, loaded_font.
  now destruct (truetype_fonts w "arial.ttf").
Qed.

(** Consecutive pairs of a point list: the strokes of an open polyline. *)
Fixpoint segments (pts : list point) : list (point * point) :=
  match pts with
  | p :: (q :: _) as rest => (p, q) :: segments rest
  | _ => []
  end.

Definition stroke (c : color) (width : Z) (pq : point * point) : draw_op :=
  Line [fst pq; snd pq] (Some c) (Some width).

Definition disk (center : point) (radius : Z) (c : color) : draw_op :=
  Ellipse (fst center - radius, snd center - radius,
           fst center + radius, snd center + radius) (Some c) None None.

Lemma In_range i n : In i (Py.range n) <-> 0 <= i < n.
Proof.
  unfold Py.range. rewrite in_map_iff. split.
  - intros (k & <- & Hk). apply in_seq in Hk. lia.
  - intros H. exists (Z.to_nat i). split; [lia|]. apply in_seq. lia.
Qed.

Lemma length_range n : List.length (Py.range n) = Z.to_nat n.
Proof. unfold Py.range. now rewrite length_map, length_seq. Qed.

Ltac div_lia := Z.to_euclidean_division_equations; lia.

(** * The draw list of [create_hq_bsl_logo] *)

Module hq.
Import create_hq_logo.

Definition center (size : Z) : Z := size * 4 / 2.
Definition radius (size : Z) : Z := size * 4 / 2 - 32.

Definition current_radius (radius i : Z) : Z := radius - i * radius / 50.

Definition ring_color (i : Z) : color :=
  (gradient_channel 206 139 (Py.truediv i 50),
   gradient_channel 66 44 (Py.truediv i 50),
   gradient_channel 43 27 (Py.truediv i 50),
   gradient_alpha 50 i).

Definition ring (center radius i : Z) : draw_op :=
  disk (center, center) (current_radius radius i) (ring_color i).

(** The gradient stage: one ring per index whose radius is positive. *)
Definition gradient (center radius : Z) : list draw_op :=
  flat_map (fun i => if 0 <? current_radius radius i
                     then [ring center radius i] else [])
           (Py.range 50).

Definition marker (p : point) : list draw_op :=
  [ disk (fst p + 2, snd p + 2) 13 (0, 100, 180, 100);
    disk p 12 (0, 122, 204, 255);
    disk (fst p - 3, snd p - 3) 4 (255, 255, 255, 150) ].

(** The inner outline, the first call after the gradient. *)
Definition inner_outline (center radius : Z) : draw_op :=
  Ellipse (center - (radius - 32), center - (radius - 32),
           center + (radius - 32), center + (radius - 32))
          None (Some (255, 255, 255, 40)) (Some 4).

(** What is painted between the inner outline and the text. *)
Definition emblem (center : Z) : list draw_op :=
  (map (stroke (255, 255, 255, 255) 12) (segments (left_points center))
   ++ map (stroke (255, 255, 255, 255) 12) (segments (right_points center))
   ++ flat_map marker (points center)
   ++ map (stroke (255, 255, 255, 200) 6) (connections center)
   ++ [ disk (center + 120 + 2, center + 120 + 2) 18 (0, 0, 0, 100);
        disk (center + 120, center + 120) 16 (255, 255, 255, 230);
        disk (center + 120, center + 120) 8 (206, 66, 43, 200);
        disk (center + 120, center + 120) 4 (255, 255, 255, 255);
        RoundedRectangle (center + 120 - 32, center - 120 - 32,
                          center + 120 + 32, center - 120 + 32)
                         8 (Some (255, 255, 255, 60)) (Some (255, 255, 255, 120))
                         (Some 2) ])%list.

Definition badge_text (fnt : font) (center : Z) : list draw_op :=
  [ Text (center + 120 + 2, center - 120 + 2) "1C" (Some (0, 0, 0, 100))
         (Some fnt) (Some "mm");
    Text (center + 120, center - 120) "1C" (Some (255, 255, 255, 255))
         (Some fnt) (Some "mm") ].

(** Everything painted after the gradient, in paint order. *)
Definition decoration (fnt : font) (center radius : Z) : list draw_op :=
  (inner_outline center radius :: emblem center ++ badge_text fnt center)%list.

Definition ops (fnt : font) (size : Z) : list draw_op :=
  (gradient (center size) (radius size)
     ++ decoration fnt (center size) (radius size))%list.

(** The image [create_hq_bsl_logo(size)] returns when [fnt] is the font in
    use. *)
Definition result (fnt : font) (size : Z) : image :=
  mkImage RGBA (size * 4, size * 4) (0, 0, 0, 0)
          (map Drawn (ops fnt size)
             ++ [Resized (size, size) LANCZOS;
                 Filtered (UnsharpMask (1 # 2) 120 2)]).

Lemma create_smooth_circle_fill c r col :
  issues (create_smooth_circle c r col 0) [disk c r col].
Proof. destruct c. apply issues_draw. Qed.

Lemma gradient_iteration_issues c r i :
  issues (gradient_iteration c r 50 i)
         (if 0 <? current_radius r i then [ring c r i] else []).
Proof.
  unfold gradient_iteration, current_radius.
  destruct (0 <? r - i * r / 50).
  - apply create_smooth_circle_fill.
  - apply issues_ret.
Qed.

Lemma gradient_issues c r :
  issues (for_each (Py.range 50) (fun i => gradient_iteration c r 50 i))
         (gradient c r).
Proof. apply issues_for_each. intros i. apply gradient_iteration_issues. Qed.

(** The painting code of [create_hq_bsl_logo] calls, in order, the rings,
    the inner outline and the emblem, and later the two texts. *)
Lemma paint_composition_issues size :
  issues (paint_composition (size * 4))
         (gradient (center size) (radius size)
            ++ inner_outline (center size) (radius size) :: emblem (center size)).
Proof.
  unfold paint_composition. cbv zeta.
  apply issues_seq; [apply gradient_issues|].
  eapply (issues_seq _ _ [_]); [apply issues_draw|].
  eapply issues_eq.
  - apply issues_seq.
    { apply (issues_for_each _ (fun i => [stroke (255, 255, 255, 255) 12
               (Py.item (0, 0) (left_points (size * 4 / 2)) i,
                Py.item (0, 0) (left_points (size * 4 / 2)) (i + 1))])).
      intros i. apply issues_draw. }
    apply issues_seq.
    { apply (issues_for_each _ (fun i => [stroke (255, 255, 255, 255) 12
               (Py.item (0, 0) (right_points (size * 4 / 2)) i,
                Py.item (0, 0) (right_points (size * 4 / 2)) (i + 1))])).
      intros i. apply issues_draw. }
    apply issues_seq.
    { apply (issues_for_each _ marker). intros p.
      eapply (issues_seq _ _ [_]); [apply create_smooth_circle_fill|].
      eapply (issues_seq _ _ [_] [_]); apply create_smooth_circle_fill. }
    apply issues_seq.
    { apply (issues_for_each _ (fun pq => [stroke (255, 255, 255, 200) 6 pq])).
      intros [p q]. apply issues_draw. }
    eapply (issues_seq _ _ [_]); [apply create_smooth_circle_fill|].
    eapply (issues_seq _ _ [_]); [apply create_smooth_circle_fill|].
    eapply (issues_seq _ _ [_]); [apply create_smooth_circle_fill|].
    eapply (issues_seq _ _ [_] [_]); [apply create_smooth_circle_fill|].
    apply issues_draw.
  - reflexivity.
Qed.

Lemma paint_text_issues size fnt :
  issues (paint_text (size * 4) fnt) (badge_text fnt (center size)).
Proof.
  unfold paint_text. cbv zeta.
  eapply (issues_seq _ _ [_] [_]); apply issues_draw.
Qed.

Lemma ring_accepted c r i :
  0 < current_radius r i -> refusal (ring c r i) = None.
Proof.
  intros H. apply refusal_none. unfold ring, disk.
  repeat constructor; cbn [fst snd]; lia.
Qed.

Lemma gradient_accepted c r :
  Forall (fun op => refusal op = None) (gradient c r).
Proof.
  unfold gradient. apply Forall_flat_map, Forall_forall. intros i _.
  destruct (Z.ltb_spec 0 (current_radius r i)); [|constructor].
  constructor; [now apply ring_accepted | constructor].
Qed.

Lemma emblem_accepted c :
  Forall (fun op => refusal op = None) (emblem c).
Proof.
  cbv [emblem app map flat_map segments left_points right_points points
       connections marker stroke disk fst snd].
  repeat (constructor; [apply refusal_none; repeat constructor; lia|]).
  constructor.
Qed.

Lemma radius_eq size : radius size = 2 * size - 32.
Proof.
  unfold radius. replace (size * 4) with (2 * size * 2) by lia.
  now rewrite Z.div_mul.
Qed.

Lemma center_eq size : center size = 2 * size.
Proof.
  unfold center. replace (size * 4) with (2 * size * 2) by lia.
  now rewrite Z.div_mul.
Qed.

Lemma history size fnt img :
  img = paint (ops fnt size) (mkImage RGBA (size * 4, size * 4) (0, 0, 0, 0) []) ->
  Image_filter (UnsharpMask (1 # 2) 120 2)
               (Image_resize (size, size) LANCZOS img)
  = result fnt size.
Proof.
  intros ->.
  unfold Image_filter, Image_resize, then_, paint, result.
  cbn [mode allocated background steps app].
  now rewrite <- app_assoc.
Qed.

(** From size 32 on (and while the canvas side [4 * size] fits a C [int])
    every call is accepted and the function returns. *)
Theorem create_hq_bsl_logo_run size w :
  32 <= size -> size * 4 <= max_side ->
  create_hq_bsl_logo size w = (Returned (result (loaded_font w 40) size), w).
Proof.
  intros Hlo Hhi. unfold create_hq_bsl_logo. cbv zeta.
  unfold bind at 1. rewrite Image_new_run by lia.
  unfold bind at 1.
  rewrite (ImageDraw_Draw_returns _ _ _ _ (paint_composition_issues size)).
  2:{ apply Forall_app. split; [apply gradient_accepted|].
      constructor; [|apply emblem_accepted].
      apply refusal_none. unfold inner_outline. rewrite radius_eq.
      repeat constructor; lia. }
  unfold bind at 1. rewrite load_font_run.
  unfold bind at 1.
  rewrite (ImageDraw_Draw_returns _ _ _ _ (paint_text_issues size _))
    by (repeat constructor).
  unfold ret. do 2 f_equal. apply history.
  rewrite paint_paint. unfold ops, decoration.
  now rewrite <- app_assoc.
Qed.

(** Below size 32 the box of the inner outline, of radius [2*size - 64], is
    inverted: the library refuses it and the function raises. *)
Theorem create_hq_bsl_logo_raises size w :
  0 <= size < 32 ->
  create_hq_bsl_logo size w
  = (Raised (ValueError "x1 must be greater than or equal to x0"), w).
Proof.
  intros Hsize. unfold create_hq_bsl_logo. cbv zeta.
  unfold bind at 1. rewrite Image_new_run by (unfold max_side; lia).
  unfold bind at 1.
  rewrite (ImageDraw_Draw_raises
             _ _ _ _ (ValueError "x1 must be greater than or equal to x0") _ _
             (paint_composition_issues size)
             (gradient_accepted _ _)).
  - reflexivity.
  - unfold inner_outline. cbn [refusal]. apply refusal_x. rewrite radius_eq. lia.
Qed.

Theorem create_hq_bsl_logo_refused size w :
  size < 0 ->
  create_hq_bsl_logo size w
  = (Raised (ValueError "Width and height must be >= 0"), w).
Proof.
  intros Hsize. unfold create_hq_bsl_logo. cbv zeta.
  unfold bind at 1, Image_new.
  now destruct (Z.ltb_spec (size * 4) 0); [|lia].
Qed.

Theorem create_hq_bsl_logo_too_large size w :
  max_side < size * 4 ->
  create_hq_bsl_logo size w
  = (Raised (OverflowError "Python int too large to convert to C int"), w).
Proof.
  intros Hsize. unfold create_hq_bsl_logo. cbv zeta.
  unfold bind at 1, Image_new.
  destruct (Z.ltb_spec (size * 4) 0); [unfold max_side in *; lia|].
  now destruct (Z.ltb_spec max_side (size * 4)); [|lia].
Qed.

End hq.

(** * The draw list of [create_simplified_logo] *)

(** The flat composition of [create_simplified_logo]: a solid disk, two
    solid bars, a solid centre dot (every fill has alpha 255). *)
Definition flat_composition (size : Z) : list draw_op :=
  let center := size / 2 in
  [ Ellipse (2, 2, size - 2, size - 2) (Some (206, 66, 43, 255)) None None;
    Rectangle (center / 2, center / 2,
               center / 2 + Z.max 1 (size / 16), center + center / 2)
              (Some (255, 255, 255, 255)) None None;
    Rectangle (center + center / 2, center / 2,
               center + center / 2 + Z.max 1 (size / 16), center + center / 2)
              (Some (255, 255, 255, 255)) None None;
    Ellipse (center - Z.max 1 (size / 8), center - Z.max 1 (size / 8),
             center + Z.max 1 (size / 8), center + Z.max 1 (size / 8))
            (Some (0, 122, 204, 255)) None None ].

Module simplified.
Import create_hq_logo.

(** The image [create_simplified_logo(size)] returns. *)
Definition result (size : Z) : image :=
  mkImage RGBA (size, size) (0, 0, 0, 0) (map Drawn (flat_composition size)).

(** The canvas of [create_simplified_logo(size)] after its painting code
    ran, to its end or to the call the library refused (for a negative
    size, which [Image.new] refuses, the canvas the painting code would be
    given). *)
Definition canvas (size : Z) : image :=
  snd (paint_simplified size (mkImage RGBA (size, size) (0, 0, 0, 0) [])).

Lemma paint_simplified_issues size :
  issues (paint_simplified size) (flat_composition size).
Proof.
  unfold paint_simplified. cbv zeta.
  eapply (issues_seq _ _ [_]); [apply issues_draw|].
  eapply (issues_seq _ _ [_]); [apply issues_draw|].
  eapply (issues_seq _ _ [_] [_]); apply issues_draw.
Qed.

Lemma flat_composition_accepted size :
  4 <= size -> Forall (fun op => refusal op = None) (flat_composition size).
Proof.
  intros Hsize. unfold flat_composition. cbv zeta.
  repeat (constructor; [apply refusal_none; repeat constructor; div_lia|]).
  constructor.
Qed.

Theorem create_simplified_logo_run size w :
  4 <= size <= max_side ->
  create_simplified_logo size w = (Returned (result size), w).
Proof.
  intros Hsize. unfold create_simplified_logo.
  unfold bind at 1. rewrite Image_new_run by lia.
  unfold bind at 1.
  rewrite (ImageDraw_Draw_returns _ _ _ _ (paint_simplified_issues size))
    by (apply flat_composition_accepted; lia).
  reflexivity.
Qed.

(** Below size 4 the box [[2, 2, size-2, size-2]] of the disk is inverted. *)
Theorem create_simplified_logo_raises size w :
  0 <= size < 4 ->
  create_simplified_logo size w
  = (Raised (ValueError "x1 must be greater than or equal to x0"), w).
Proof.
  intros Hsize. unfold create_simplified_logo.
  unfold bind at 1. rewrite Image_new_run by (unfold max_side; lia).
  unfold bind at 1.
  rewrite (ImageDraw_Draw_raises
             _ [] _ _ (ValueError "x1 must be greater than or equal to x0") _ _
             (paint_simplified_issues size)
             (Forall_nil _)).
  - reflexivity.
  - cbn [refusal]. apply refusal_x. lia.
Qed.

Lemma canvas_draw_ops size :
  draw_ops (canvas size) = issued (flat_composition size).
Proof.
  unfold canvas. rewrite paint_simplified_issues, for_each_draw.
  cbn [snd]. now rewrite draw_ops_paint.
Qed.

End simplified.

(** * The draw list of [create_bsl_logo] *)

Module png.
Import create_logo_png.

Definition center (size : Z) : Z := size / 2.
Definition radius (size : Z) : Z := size / 2 - 8.

Definition ring_color (radius i : Z) : color :=
  (gradient_channel 206 139 radius i,
   gradient_channel 66 44 radius i,
   gradient_channel 43 27 radius i,
   gradient_alpha radius i).

Definition ring (center radius i : Z) : draw_op :=
  Ellipse (center - radius + i, center - radius + i,
           center + radius - i, center + radius - i)
          (Some (ring_color radius i)) None None.

(** The gradient stage: one ring per index of [range(radius)]. *)
Definition gradient (center radius : Z) : list draw_op :=
  map (ring center radius) (Py.range radius).

(** The inner circle, the first call after the gradient. *)
Definition inner_circle (center radius : Z) : draw_op :=
  Ellipse (center - (radius - 8), center - (radius - 8),
           center + (radius - 8), center + (radius - 8))
          None (Some (255, 255, 255, 50)) (Some 1).

(** What is painted between the inner circle and the text; the two
    brackets are stroked alternately, segment by segment. *)
Definition emblem (center : Z) : list draw_op :=
  (flat_map (fun lr => [ stroke (255, 255, 255, 255) 3 (fst lr);
                         stroke (255, 255, 255, 255) 3 (snd lr) ])
            (combine (segments (bracket_points_left center))
                     (segments (bracket_points_right center)))
   ++ map (fun p => disk p 3 (0, 122, 204, 255)) (points center)
   ++ map (stroke (255, 255, 255, 200) 2) (connections center)
   ++ [ disk (center + 30, center + 30) 4 (255, 255, 255, 230);
        disk (center + 30, center + 30) 2 (206, 66, 43, 200);
        Rectangle (center + 30 - 8, center - 30 - 8,
                   center + 30 + 8, center - 30 + 8)
                  (Some (255, 255, 255, 50)) None None ])%list.

Definition badge_text (fnt : font) (center : Z) : list draw_op :=
  [ Text (center + 30, center - 30) "1C" (Some (255, 255, 255, 255))
         (Some fnt) (Some "mm") ].

(** Everything painted after the gradient, in paint order. *)
Definition decoration (fnt : font) (center radius : Z) : list draw_op :=
  (inner_circle center radius :: emblem center ++ badge_text fnt center)%list.

Definition ops (fnt : font) (size : Z) : list draw_op :=
  (gradient (center size) (radius size)
     ++ decoration fnt (center size) (radius size))%list.

(** The image [create_bsl_logo(size)] returns when [fnt] is the font in use. *)
Definition result (fnt : font) (size : Z) : image :=
  mkImage RGBA (size, size) (0, 0, 0, 0) (map Drawn (ops fnt size)).

Lemma ring_loop_issues c r :
  issues (for_each (Py.range r) (fun i => gradient_iteration c r i)) (gradient c r).
Proof.
  unfold gradient. eapply issues_eq.
  - apply (issues_for_each _ (fun i => [ring c r i])). intros i. apply issues_draw.
  - induction (Py.range r) as [|i l IH]; cbn; [reflexivity | now rewrite IH].
Qed.

Lemma bsl_composition_issues size :
  issues (paint_composition size)
         (gradient (center size) (radius size)
            ++ inner_circle (center size) (radius size) :: emblem (center size)).
Proof.
  unfold paint_composition. cbv zeta.
  apply issues_seq; [apply ring_loop_issues|].
  eapply (issues_seq _ _ [_]); [apply issues_draw|].
  eapply issues_eq.
  - apply issues_seq.
    { apply (issues_for_each _ (fun i =>
               [ stroke (255, 255, 255, 255) 3
                   (Py.item (0, 0) (bracket_points_left (size / 2)) i,
                    Py.item (0, 0) (bracket_points_left (size / 2)) (i + 1));
                 stroke (255, 255, 255, 255) 3
                   (Py.item (0, 0) (bracket_points_right (size / 2)) i,
                    Py.item (0, 0) (bracket_points_right (size / 2)) (i + 1)) ])).
      intros i. eapply (issues_seq _ _ [_] [_]); apply issues_draw. }
    apply issues_seq.
    { apply (issues_for_each _ (fun p => [disk p 3 (0, 122, 204, 255)])).
      intros p. apply issues_draw. }
    apply issues_seq.
    { apply (issues_for_each _ (fun pq => [stroke (255, 255, 255, 200) 2 pq])).
      intros [p q]. apply issues_draw. }
    eapply (issues_seq _ _ [_]); [apply issues_draw|].
    eapply (issues_seq _ _ [_] [_]); apply issues_draw.
  - reflexivity.
Qed.

Lemma bsl_text_issues size fnt :
  issues (paint_text size fnt) (badge_text fnt (center size)).
Proof. apply issues_draw. Qed.

Lemma bsl_gradient_accepted c r :
  Forall (fun op => refusal op = None) (gradient c r).
Proof.
  unfold gradient. apply Forall_map, Forall_forall. intros i Hi.
  apply In_range in Hi. apply refusal_none. unfold ring.
  repeat constructor; lia.
Qed.

Lemma bsl_emblem_accepted c :
  Forall (fun op => refusal op = None) (emblem c).
Proof.
  cbv [emblem app map flat_map combine segments bracket_points_left
       bracket_points_right points connections stroke disk fst snd].
  repeat (constructor; [apply refusal_none; repeat constructor; lia|]).
  constructor.
Qed.

(** From size 32 on every call is accepted and the function returns. *)
Theorem create_bsl_logo_run size w :
  32 <= size <= max_side ->
  create_bsl_logo size w = (Returned (result (loaded_font w 10) size), w).
Proof.
  intros Hsize. unfold create_bsl_logo.
  unfold bind at 1. rewrite Image_new_run by lia.
  unfold bind at 1.
  rewrite (ImageDraw_Draw_returns _ _ _ _ (bsl_composition_issues size)).
  2:{ apply Forall_app. split; [apply bsl_gradient_accepted|].
      constructor; [|apply bsl_emblem_accepted].
      apply refusal_none. unfold inner_circle, radius.
      repeat constructor; div_lia. }
  unfold bind at 1. rewrite load_font_run.
  unfold bind at 1.
  rewrite (ImageDraw_Draw_returns _ _ _ _ (bsl_text_issues size _))
    by (repeat constructor).
  unfold ret. do 2 f_equal.
  rewrite paint_paint. unfold paint, result, ops, decoration.
  cbn [mode allocated background steps app]. now rewrite <- app_assoc.
Qed.

(** Below size 32 the box of the inner circle, of radius [size // 2 - 16],
    is inverted: the library refuses it and the function raises. *)
Theorem create_bsl_logo_raises size w :
  0 <= size < 32 ->
  create_bsl_logo size w
  = (Raised (ValueError "x1 must be greater than or equal to x0"), w).
Proof.
  intros Hsize. unfold create_bsl_logo.
  unfold bind at 1. rewrite Image_new_run by (unfold max_side; lia).
  unfold bind at 1.
  rewrite (ImageDraw_Draw_raises
             _ _ _ _ (ValueError "x1 must be greater than or equal to x0") _ _
             (bsl_composition_issues size)
             (bsl_gradient_accepted _ _)).
  - reflexivity.
  - unfold inner_circle, radius. cbn [refusal]. apply refusal_x. div_lia.
Qed.

Theorem create_bsl_logo_refused size w :
  size < 0 ->
  create_bsl_logo size w
  = (Raised (ValueError "Width and height must be >= 0"), w).
Proof.
  intros Hsize. unfold create_bsl_logo.
  unfold bind at 1, Image_new.
  now destruct (Z.ltb_spec size 0); [|lia].
Qed.

Theorem create_bsl_logo_too_large size w :
  max_side < size ->
  create_bsl_logo size w
  = (Raised (OverflowError "Python int too large to convert to C int"), w).
Proof.
  intros Hsize. unfold create_bsl_logo.
  unfold bind at 1, Image_new.
  destruct (Z.ltb_spec size 0); [unfold max_side in *; lia|].
  now destruct (Z.ltb_spec max_side size); [|lia].
Qed.

End png.

(** * Sample environments *)

(** No TrueType font loads; every path is writable. *)
Definition bare_world : world :=
  mkWorld (fun _ => false) (fun _ => true) 0 [] [].

Lemma size_after_draws ops sz : fold_left size_after (map Drawn ops) sz = sz.
Proof. induction ops as [|op ops IH]; cbn; [reflexivity | exact IH]. Qed.

Lemma hq_result_size fnt size : Image_size (hq.result fnt size) = (size, size).
Proof.
  unfold Image_size, hq.result; cbn [steps allocated].
  now rewrite fold_left_app, size_after_draws.
Qed.

Lemma png_result_size fnt size : Image_size (png.result fnt size) = (size, size).
Proof. unfold Image_size, png.result; cbn [steps allocated]. apply size_after_draws. Qed.

Lemma simplified_result_size size : Image_size (simplified.result size) = (size, size).
Proof. reflexivity. Qed.

Lemma draw_ops_of_draws ops tl :
  flat_map (fun s => match s with Drawn op => [op] | _ => [] end)
           (map Drawn ops ++ tl)
  = (ops ++ flat_map (fun s => match s with Drawn op => [op] | _ => [] end) tl)%list.
Proof. induction ops as [|op ops IH]; cbn; [reflexivity | now rewrite IH]. Qed.

Lemma hq_result_draw_ops fnt size : draw_ops (hq.result fnt size) = hq.ops fnt size.
Proof.
  unfold draw_ops, hq.result; cbn [steps].
  rewrite draw_ops_of_draws. cbn. apply app_nil_r.
Qed.

Lemma png_result_draw_ops fnt size : draw_ops (png.result fnt size) = png.ops fnt size.
Proof.
  unfold draw_ops, png.result; cbn [steps].
  rewrite <- (app_nil_r (map Drawn _)), draw_ops_of_draws. cbn. apply app_nil_r.
Qed.

Lemma no_resize_in_draws ops :
  flat_map (fun s => match s with Resized sz r => [(sz, r)] | _ => [] end)
           (map Drawn ops) = [].
Proof. induction ops as [|op ops IH]; cbn; [reflexivity | exact IH]. Qed.

Lemma no_filter_in_draws ops :
  flat_map (fun s => match s with Filtered f => [f] | _ => [] end)
           (map Drawn ops) = [].
Proof. induction ops as [|op ops IH]; cbn; [reflexivity | exact IH]. Qed.

(** * Output dimensions *)

(** C1, as stated, fails at small sizes: called with a size of 16,
    [create_hq_bsl_logo] and [create_bsl_logo] pass an inverted box for
    their inner circle and the library raises [ValueError];
    [create_simplified_logo] does so with a size of 2, on the box of its
    disk.  No image is returned. *)
Lemma generators_raise_at_small_sizes :
  0 < 16
  /\ fst (create_hq_logo.create_hq_bsl_logo 16 bare_world)
     = Raised (ValueError "x1 must be greater than or equal to x0")
  /\ fst (create_logo_png.create_bsl_logo 16 bare_world)
     = Raised (ValueError "x1 must be greater than or equal to x0")
  /\ 0 < 2
  /\ fst (create_hq_logo.create_simplified_logo 2 bare_world)
     = Raised (ValueError "x1 must be greater than or equal to x0").
Proof.
  split; [reflexivity|].
  rewrite hq.create_hq_bsl_logo_raises by lia.
  rewrite png.create_bsl_logo_raises by lia.
  rewrite simplified.create_simplified_logo_raises by lia.
  repeat split.
Qed.

(** C1 (amended).  For every size S from 32 on, [create_hq_bsl_logo] and
    [create_bsl_logo] return an image in RGBA mode whose pixel dimensions
    are exactly S by S, and so does [create_simplified_logo] for every size
    from 4 on, whatever the fonts available, as long as the side of the
    canvas (4*S for [create_hq_bsl_logo], S for the other two) fits a
    C [int]. *)
Theorem generators_return_S_by_S (size : Z) (w : world) :
  (32 <= size -> size * 4 <= max_side ->
   exists img,
     fst (create_hq_logo.create_hq_bsl_logo size w) = Returned img
     /\ mode img = RGBA /\ Image_size img = (size, size))
  /\ (4 <= size <= max_side ->
      exists img,
        fst (create_hq_logo.create_simplified_logo size w) = Returned img
        /\ mode img = RGBA /\ Image_size img = (size, size))
  /\ (32 <= size <= max_side ->
      exists img,
        fst (create_logo_png.create_bsl_logo size w) = Returned img
        /\ mode img = RGBA /\ Image_size img = (size, size)).
Proof.
  split; [|split].
  - intros Hlo Hhi. rewrite hq.create_hq_bsl_logo_run by assumption.
    eexists. split; [reflexivity|].
    split; [reflexivity | apply hq_result_size].
  - intros Hsize. rewrite simplified.create_simplified_logo_run by assumption.
    eexists. split; [reflexivity|]. split; reflexivity.
  - intros Hsize. rewrite png.create_bsl_logo_run by assumption.
    eexists. split; [reflexivity|].
    split; [reflexivity | apply png_result_size].
Qed.

Lemma generators_return_S_by_S_witness :
  (exists img,
      fst (create_hq_logo.create_hq_bsl_logo 128 bare_world) = Returned img
      /\ mode img = RGBA /\ Image_size img = (128, 128))
  /\ (exists img,
         fst (create_hq_logo.create_simplified_logo 16 bare_world) = Returned img
         /\ mode img = RGBA /\ Image_size img = (16, 16))
  /\ (exists img,
         fst (create_logo_png.create_bsl_logo 32 bare_world) = Returned img
         /\ mode img = RGBA /\ Image_size img = (32, 32)).
Proof.
  split; [|split].
  - apply (proj1 (generators_return_S_by_S 128 bare_world)); unfold max_side; lia.
  - apply (proj1 (proj2 (generators_return_S_by_S 16 bare_world)));
      unfold max_side; lia.
  - apply (proj2 (proj2 (generators_return_S_by_S 32 bare_world)));
      unfold max_side; lia.
Defined.

(** * Bracket mirroring *)

(** C2.  In both generators, whenever the left bracket's point list has the
    point (x, y) at some index, the right bracket's point list has, at the
    same index, its reflection about the vertical line through [center]:
    (2*center - x, y).  The two lists have the same length, so this covers
    every point of both brackets. *)
Theorem right_bracket_mirrors_left (center : Z) (i : nat) (x y : Z) :
  (nth_error (create_hq_logo.left_points center) i = Some (x, y) ->
   nth_error (create_hq_logo.right_points center) i = Some (2 * center - x, y))
  /\ (nth_error (create_logo_png.bracket_points_left center) i = Some (x, y) ->
      nth_error (create_logo_png.bracket_points_right center) i
      = Some (2 * center - x, y))
  /\ List.length (create_hq_logo.right_points center)
     = List.length (create_hq_logo.left_points center)
  /\ List.length (create_logo_png.bracket_points_right center)
     = List.length (create_logo_png.bracket_points_left center).
Proof.
  repeat split.
  - intros H. unfold create_hq_logo.right_points.
    rewrite nth_error_map. unfold point in *. rewrite H. cbn [option_map].
    now replace (2 * center - x) with (center + (center - x)) by lia.
  - do 10 (destruct i as [|i];
           [intros [= <- <-]; cbn [nth_error create_logo_png.bracket_points_right];
            f_equal; apply pair_equal_spec; split; lia|]).
    destruct i; discriminate.
Qed.

Lemma right_bracket_mirrors_left_witness :
  nth_error (create_hq_logo.right_points 256) 3 = Some (2 * 256 - 156, 216)
  /\ nth_error (create_logo_png.bracket_points_right 64) 3 = Some (2 * 64 - 39, 54).
Proof.
  split.
  - apply (proj1 (right_bracket_mirrors_left 256 3 156 216)). reflexivity.
  - apply (proj1 (proj2 (right_bracket_mirrors_left 64 3 39 54))). reflexivity.
Defined.

(** * The supersampling pipeline *)

(** The pipeline of the detailed contract: a canvas allocated at four times
    the final size, draw calls only, then one LANCZOS resize to the final
    size, then one unsharp-mask pass. *)
Definition supersampled (size : Z) (img : image) : Prop :=
  allocated img = (4 * size, 4 * size)
  /\ exists ops radius percent threshold,
       steps img
       = (map Drawn ops
            ++ [Resized (size, size) LANCZOS;
                Filtered (UnsharpMask radius percent threshold)])%list.

(** C3, as stated, fails on [create_bsl_logo]: [create_bsl_logo(128)] runs
    the detailed composition (gradient, brackets, markers, strokes, badges,
    text) but its canvas is 128 wide, not 512, and it is never resized or
    filtered. *)
Lemma bsl_logo_not_supersampled :
  exists img,
    fst (create_logo_png.create_bsl_logo 128 bare_world) = Returned img
    /\ ~ supersampled 128 img.
Proof.
  rewrite png.create_bsl_logo_run by (unfold max_side; lia).
  eexists. split; [reflexivity|].
  intros [Halloc _]. discriminate Halloc.
Qed.

(** C3 (amended).  For every target size from 32 on (below that the
    function raises before it resizes), [create_hq_bsl_logo] allocates its
    canvas at 4 times the final size, issues only draw calls on it, then
    resizes it once to the final size with the LANCZOS filter and applies
    one unsharp mask (radius 0.5, percent 120, threshold 2).
    [create_bsl_logo] paints on a canvas of the final size and neither
    resizes nor filters. *)
Theorem hq_logo_is_supersampled (size : Z) (w : world) :
  (32 <= size -> size * 4 <= max_side ->
   exists img,
     fst (create_hq_logo.create_hq_bsl_logo size w) = Returned img
     /\ supersampled size img
     /\ resizes img = [((size, size), LANCZOS)]
     /\ filters img = [UnsharpMask (1 # 2) 120 2])
  /\ (32 <= size <= max_side ->
      exists img,
        fst (create_logo_png.create_bsl_logo size w) = Returned img
        /\ allocated img = (size, size)
        /\ resizes img = [] /\ filters img = []).
Proof.
  split.
  - intros Hlo Hhi. rewrite hq.create_hq_bsl_logo_run by assumption.
    eexists. split; [reflexivity|].
    split; [|split].
    + split.
      * unfold hq.result; cbn [allocated]. apply pair_equal_spec; lia.
      * now exists (hq.ops (loaded_font w 40) size), (1 # 2)%Q, 120, 2.
    + unfold resizes, hq.result; cbn [steps].
      now rewrite flat_map_app, no_resize_in_draws.
    + unfold filters, hq.result; cbn [steps].
      now rewrite flat_map_app, no_filter_in_draws.
  - intros Hsize. rewrite png.create_bsl_logo_run by assumption.
    eexists. split; [reflexivity|].
    split; [reflexivity|].
    unfold resizes, filters, png.result; cbn [steps].
    split; [apply no_resize_in_draws | apply no_filter_in_draws].
Qed.

Lemma hq_logo_is_supersampled_witness :
  (exists img,
      fst (create_hq_logo.create_hq_bsl_logo 48 bare_world) = Returned img
      /\ supersampled 48 img
      /\ resizes img = [((48, 48), LANCZOS)]
      /\ filters img = [UnsharpMask (1 # 2) 120 2])
  /\ (exists img,
         fst (create_logo_png.create_bsl_logo 64 bare_world) = Returned img
         /\ allocated img = (64, 64)
         /\ resizes img = [] /\ filters img = []).
Proof.
  split.
  - apply (proj1 (hq_logo_is_supersampled 48 bare_world)); unfold max_side; lia.
  - apply (proj2 (hq_logo_is_supersampled 64 bare_world)); unfold max_side; lia.
Defined.

(** * The simplified variant *)

(** C4, as stated, fails below size 4: a size of 2 is at most 24 and selects
    [create_simplified_logo], but the box [[2, 2, 0, 0]] of its disk is
    inverted, the library raises [ValueError], and no flat composition is
    drawn. *)
Lemma simplified_raises_at_size_2 :
  2 <= 24
  /\ fst (create_hq_logo.select_logo 2 bare_world)
     = Raised (ValueError "x1 must be greater than or equal to x0").
Proof.
  split; [discriminate|].
  change (create_hq_logo.select_logo 2)
    with (create_hq_logo.create_simplified_logo 2).
  now rewrite simplified.create_simplified_logo_raises by lia.
Qed.

(** C4 (amended).  At the head of the icon loop, a size of at most 24
    selects [create_simplified_logo] and a size above 24 selects
    [create_hq_bsl_logo], the detailed path.  For every size from 4 to 24
    the image returned has, as its whole history, the four draw calls of
    the flat composition on a canvas of the final size (no gradient ring,
    shadow or highlight, no resize, no filter). *)
Theorem simplified_at_most_24 (size : Z) (w : world) :
  (size <= 24 ->
   create_hq_logo.select_logo size w
   = create_hq_logo.create_simplified_logo size w)
  /\ (4 <= size <= 24 ->
      exists img,
        create_hq_logo.select_logo size w = (Returned img, w)
        /\ allocated img = (size, size)
        /\ steps img = map Drawn (flat_composition size))
  /\ (24 < size ->
      create_hq_logo.select_logo size w
      = create_hq_logo.create_hq_bsl_logo size w).
Proof.
  unfold create_hq_logo.select_logo. split; [|split]; intros H.
  - now destruct (Z.leb_spec size 24); [|lia].
  - destruct (Z.leb_spec size 24); [|lia].
    rewrite simplified.create_simplified_logo_run by (unfold max_side; lia).
    eexists. repeat split.
  - now destruct (Z.leb_spec size 24); [lia|].
Qed.

Lemma simplified_at_most_24_witness :
  (exists img,
      create_hq_logo.select_logo 16 bare_world = (Returned img, bare_world)
      /\ allocated img = (16, 16)
      /\ steps img = map Drawn (flat_composition 16))
  /\ create_hq_logo.select_logo 32 bare_world
     = create_hq_logo.create_hq_bsl_logo 32 bare_world.
Proof.
  split.
  - apply (proj1 (proj2 (simplified_at_most_24 16 bare_world))). lia.
  - apply (proj2 (proj2 (simplified_at_most_24 32 bare_world))). reflexivity.
Defined.

(** * Font fallback *)

(** The text draw calls of an image, with the font each one uses. *)
Definition text_of (op : draw_op) : list (string * option font) :=
  match op with
  | Text _ t _ f _ => [(t, f)]
  | _ => []
  end.

Definition texts (img : image) : list (string * option font) :=
  flat_map text_of (draw_ops img).

Lemma hq_gradient_no_text c r : flat_map text_of (hq.gradient c r) = [].
Proof.
  unfold hq.gradient.
  induction (Py.range 50) as [|i l IH]; cbn [flat_map]; [reflexivity|].
  rewrite flat_map_app, IH.
  destruct (0 <? hq.current_radius r i); reflexivity.
Qed.

Lemma png_gradient_no_text c r : flat_map text_of (png.gradient c r) = [].
Proof.
  unfold png.gradient.
  induction (Py.range r) as [|i l IH]; cbn; [reflexivity | exact IH].
Qed.

Lemma hq_texts fnt size :
  texts (hq.result fnt size) = [("1C", Some fnt); ("1C", Some fnt)].
Proof.
  unfold texts. rewrite hq_result_draw_ops. unfold hq.ops.
  now rewrite flat_map_app, hq_gradient_no_text.
Qed.

Lemma png_texts fnt size : texts (png.result fnt size) = [("1C", Some fnt)].
Proof.
  unfold texts. rewrite png_result_draw_ops. unfold png.ops.
  now rewrite flat_map_app, png_gradient_no_text.
Qed.

(** C5.  When [ImageFont.truetype("arial.ttf", n)] fails, the [except]
    branch leaves the built-in default font in [font]; each generator that
    reaches its text stage (which both do for every size from 32 on) then
    still returns an image, whose text draw calls (the badge text "1C":
    shadow and main text in [create_hq_bsl_logo], the single text in
    [create_bsl_logo]) use that default font. *)
Theorem font_fallback (size : Z) (w : world) :
  truetype_fonts w "arial.ttf" = false ->
  (forall n,
      try_except (ImageFont_truetype "arial.ttf" n) ImageFont_load_default w
      = (Returned DefaultFont, w))
  /\ (32 <= size -> size * 4 <= max_side ->
      exists img,
        fst (create_hq_logo.create_hq_bsl_logo size w) = Returned img
        /\ texts img = [("1C", Some DefaultFont); ("1C", Some DefaultFont)])
  /\ (32 <= size <= max_side ->
      exists img,
        fst (create_logo_png.create_bsl_logo size w) = Returned img
        /\ texts img = [("1C", Some DefaultFont)]).
Proof.
  intros H.
  assert (Hf : forall n, loaded_font w n = DefaultFont)
    by (intros n; unfold loaded_font; now rewrite H).
  split; [|split].
  - intros n. now rewrite load_font_run, Hf.
  - intros Hlo Hhi. rewrite hq.create_hq_bsl_logo_run, Hf by assumption.
    eexists. split; [reflexivity|]. apply hq_texts.
  - intros Hsize. rewrite png.create_bsl_logo_run, Hf by assumption.
    eexists. split; [reflexivity|]. apply png_texts.
Qed.

Lemma font_fallback_witness :
  truetype_fonts bare_world "arial.ttf" = false
  /\ (exists img,
         fst (create_hq_logo.create_hq_bsl_logo 128 bare_world) = Returned img
         /\ texts img = [("1C", Some DefaultFont); ("1C", Some DefaultFont)])
  /\ (exists img,
         fst (create_logo_png.create_bsl_logo 128 bare_world) = Returned img
         /\ texts img = [("1C", Some DefaultFont)]).
Proof.
  split; [reflexivity|].
  destruct (font_fallback 128 bare_world eq_refl) as (_ & Hhq & Hpng).
  split.
  - apply Hhq; unfold max_side; lia.
  - apply Hpng; unfold max_side; lia.
Defined.

(** * Pixels: what a draw call leaves on the canvas *)

(** Both scripts make their canvas with [Image.new('RGBA', ...)] and paint
    on it through [ImageDraw.Draw(img)], with no mode argument and no call
    to [alpha_composite] or [paste]: such a [Draw] object writes the ink of
    a call, alpha included, into every pixel the shape covers.

    Which pixels a shape covers is the library's rasteriser.  It is decided
    here only where the geometry leaves no doubt: a pixel is [Covered] when
    it lies at least a pixel inside the shape, [Clear] when it lies outside
    the shape's box or at least a pixel away from a stroke, and [Unsure]
    otherwise. *)
Inductive coverage :=
| Covered (ink : color)
| Clear
| Unsure.

Definition in_box (b : box) (p : point) : bool :=
  let '(x0, y0, x1, y1) := b in
  let '(x, y) := p in
  (x0 <=? x) && (x <=? x1) && (y0 <=? y) && (y <=? y1).

(** [p] lies in the disk inscribed in the square box [b], one pixel or
    more from its edge.  Coordinates are doubled to stay in the integers:
    the centre of the box is at [(x0 + x1, y0 + y1)] and the diameter is
    [2 * (x1 - x0)].  The ellipses of the scripts all have square boxes;
    inside any other box nothing is decided. *)
Definition well_inside_disk (b : box) (p : point) : bool :=
  let '(x0, y0, x1, y1) := b in
  let '(x, y) := p in
  let a := x1 - x0 in
  let h := y1 - y0 in
  let dx := 2 * x - x0 - x1 in
  let dy := 2 * y - y0 - y1 in
  (a =? h) && (2 <=? a) && (dx * dx + dy * dy <=? (a - 2) * (a - 2)).

Definition shrink (m : Z) (b : box) : box :=
  let '(x0, y0, x1, y1) := b in (x0 + m, y0 + m, x1 - m, y1 - m).

(** What the inside of a shape receives. *)
Definition interior (fill : option color) : coverage :=
  match fill with
  | Some c => Covered c
  | None => Clear
  end.

(** The width of the outline band, drawn inside the box. *)
Definition border (outline : option color) (width : option Z) : Z :=
  match outline, width with
  | None, _ => 0
  | Some _, Some w => w
  | Some _, None => 1
  end.

(** The squared distance from [p] to the segment from [a] to [b], as a
    fraction. *)
Definition distance2 (a b p : point) : Z * Z :=
  let '(ax, ay) := a in
  let '(bx, by_) := b in
  let '(px, py) := p in
  let dx := bx - ax in
  let dy := by_ - ay in
  let len2 := dx * dx + dy * dy in
  let t := (px - ax) * dx + (py - ay) * dy in
  if t <=? 0 then ((px - ax) * (px - ax) + (py - ay) * (py - ay), 1)
  else if len2 <=? t then ((px - bx) * (px - bx) + (py - by_) * (py - by_), 1)
  else let cross := (px - ax) * dy - (py - ay) * dx in
       (cross * cross, len2).

(** [p] is farther than [k / 2] from the segment; [p] is within [k / 2]. *)
Definition farther (k : Z) (a b p : point) : bool :=
  let '(n, d) := distance2 a b p in k * k * d <? 4 * n.

Definition within (k : Z) (a b p : point) : bool :=
  let '(n, d) := distance2 a b p in (0 <? k) && (4 * n <=? k * k * d).

(** The point size of a font; the built-in font is at most 11 pixels
    high.  A text stays within that many pixels per character of its
    anchor horizontally, and within twice that vertically. *)
Definition reach (fnt : option font) : Z :=
  match fnt with
  | Some (FreeTypeFont _ n) => n
  | Some DefaultFont | None => 12
  end.

Definition cover (op : draw_op) (p : point) : coverage :=
  match op with
  | Ellipse xy fill outline width =>
      if negb (in_box xy p) then Clear
      else if well_inside_disk (shrink (border outline width) xy) p
           then interior fill
           else Unsure
  | Rectangle xy fill outline width =>
      if negb (in_box xy p) then Clear
      else if in_box (shrink (border outline width) xy) p then interior fill
           else interior outline
  | RoundedRectangle xy radius fill outline width =>
      if negb (in_box xy p) then Clear
      else if in_box (shrink (radius + border outline width) xy) p
           then interior fill
           else Unsure
  | Line pts fill width =>
      let w := match width with Some w => w | None => 0 end in
      match fill with
      | None => Clear
      | Some c =>
          if forallb (fun ab => farther (w + 2) (fst ab) (snd ab) p) (segments pts)
          then Clear
          else if existsb (fun ab => within (w - 2) (fst ab) (snd ab) p)
                          (segments pts)
               then Covered c
               else Unsure
      end
  | Text xy text fill fnt anchor =>
      let '(x, y) := p in
      let n := reach fnt in
      if (n * (Z.of_nat (String.length text) + 1) <? Z.abs (x - fst xy))
         || (2 * n <? Z.abs (y - snd xy))
      then Clear
      else Unsure
  end.

(** The pixel at [p] after one more call; [None] stands for a value the
    model does not decide. *)
Definition put (p : point) (px : option color) (op : draw_op) : option color :=
  match cover op p with
  | Covered ink => Some ink
  | Clear => px
  | Unsure => None
  end.

Definition pixel_after (background : color) (ops : list draw_op) (p : point)
  : option color :=
  fold_left (put p) ops (Some background).

(** The pixel at [p] of the canvas the draw calls of [img] were made on,
    as they leave it (before any resize or filter). *)
Definition pixel (img : image) (p : point) : option color :=
  pixel_after (background img) (draw_ops img) p.

(** The rule of the claim: straight (non-premultiplied) "over" compositing
    of a source colour on a destination pixel, on 8-bit channels. *)
Definition straight_over (src dst : color) : color :=
  let '(rs, gs, bs, as_) := src in
  let '(rd, gd, bd, ad) := dst in
  let a := as_ * 255 + ad * (255 - as_) in
  let mix cs cd := if a =? 0 then 0 else (cs * as_ * 255 + cd * ad * (255 - as_)) / a in
  (mix rs rd, mix gs gd, mix bs bd, a / 255).

(** The claim, at one pixel: every call that covers the pixel leaves there
    the composite of its colour over what the pixel held. *)
Definition blends_over (img : image) (p : point) : Prop :=
  forall pre op post ink old,
    draw_ops img = (pre ++ op :: post)%list ->
    cover op p = Covered ink ->
    pixel_after (background img) pre p = Some old ->
    pixel_after (background img) (pre ++ [op]) p = Some (straight_over ink old).

Definition is_clear (c : coverage) : bool :=
  match c with
  | Clear => true
  | _ => false
  end.

Lemma all_clear ops p :
  forallb (fun op => is_clear (cover op p)) ops = true ->
  Forall (fun op => cover op p = Clear) ops.
Proof.
  intros H. apply Forall_forall. intros op Hop.
  rewrite forallb_forall in H. specialize (H op Hop).
  now destruct (cover op p).
Qed.

Lemma put_clear p ops :
  Forall (fun op => cover op p = Clear) ops ->
  forall px, fold_left (put p) ops px = px.
Proof.
  induction 1 as [|op ops Hop _ IH]; intros px; cbn [fold_left]; [reflexivity|].
  rewrite IH. unfold put. now rewrite Hop.
Qed.




(** * The gradient stage *)

(** A channel interpolated linearly from [from] (at parameter 0) to [to] (at
    parameter 1), taken at parameter [i/n] and truncated to an integer. *)
Definition lerp (from to i n : Z) : Z := Z.quot (from * n - (from - to) * i) n.

(** An opacity falling linearly from [num/den] at [i = 0] to 0 at [i = n],
    truncated to an integer. *)
Definition ramp (num den i n : Z) : Z := Z.quot (num * (n - i)) (den * n).

Lemma ramp_div num den i n :
  0 <= num -> 0 < den -> 0 < n -> i <= n ->
  ramp num den i n = num * (n - i) / (den * n).
Proof. intros. unfold ramp. apply Z.quot_div_nonneg; nia. Qed.

Lemma ramp_nonincreasing num den n i j :
  0 <= num -> 0 < den -> 0 < n -> i <= j -> j <= n ->
  ramp num den j n <= ramp num den i n.
Proof.
  intros. rewrite !ramp_div by lia.
  apply Z.div_le_mono; nia.
Qed.

Lemma ramp_decreasing num den n i j :
  0 < den -> 0 < n -> den * n <= num -> i < j -> j <= n ->
  ramp num den j n < ramp num den i n.
Proof.
  intros. rewrite !ramp_div by nia.
  apply Z.lt_le_trans with ((num * (n - j) + 1 * (den * n)) / (den * n)).
  - rewrite Z.div_add by nia. lia.
  - apply Z.div_le_mono; nia.
Qed.

(** The binary64 colours of the fifty rings of [create_hq_bsl_logo] are the
    truncated linear interpolations. *)
Lemma hq_ring_color_exact i :
  In i (Py.range 50) ->
  hq.ring_color i
  = (lerp 206 139 i 50, lerp 66 44 i 50, lerp 43 27 i 50, ramp 2295 10 i 50).
Proof.
  intros H. vm_compute in H.
  repeat (destruct H as [<- | H]; [vm_compute; reflexivity|]).
  contradiction.
Qed.

Lemma png_alpha_exact r i :
  0 < r -> create_logo_png.gradient_alpha r i = ramp 255 1 i r.
Proof.
  intros Hr. destruct r as [|p|p]; try lia.
  unfold create_logo_png.gradient_alpha, Py.int_of_Q, ramp.
  cbn [Qdiv Qinv Qmult inject_Z Qnum Qden Pos.mul].
  f_equal; lia.
Qed.

Lemma png_channel_exact from to r i :
  0 < r -> create_logo_png.gradient_channel from to r i = lerp from to i r.
Proof.
  intros Hr. destruct r as [|p|p]; try lia.
  unfold create_logo_png.gradient_channel, Py.int_of_Q, lerp.
  cbn [Qminus Qplus Qopp Qdiv Qinv Qmult inject_Z Qnum Qden Pos.mul].
  f_equal; lia.
Qed.

(** ** The rational reading of [create_bsl_logo]'s colours, checked against
    binary64 *)

(** The colour expressions of [create_bsl_logo] evaluated in binary64, as
    Python does: [int(255 * (radius - i) / radius)] and
    [int(206 - (206 - 139) * i / radius)]. *)
Definition alpha_binary64 (radius i : Z) : Z :=
  Py.int_of_float (Py.truediv (255 * (radius - i)) radius).

Definition channel_binary64 (from to radius i : Z) : Z :=
  Py.int_of_float
    (Py.float_of_int from - Py.truediv ((from - to) * i) radius)%float.

Definition ring_color_binary64 (radius i : Z) : color :=
  (channel_binary64 206 139 radius i,
   channel_binary64 66 44 radius i,
   channel_binary64 43 27 radius i,
   alpha_binary64 radius i).

Definition color_eqb (a b : color) : bool :=
  let '(r1, g1, b1, a1) := a in
  let '(r2, g2, b2, a2) := b in
  (r1 =? r2) && (g1 =? g2) && (b1 =? b2) && (a1 =? a2).

Lemma color_eqb_eq a b : color_eqb a b = true -> a = b.
Proof.
  destruct a as [[[r1 g1] b1] a1], b as [[[r2 g2] b2] a2]. unfold color_eqb.
  rewrite !andb_true_iff, !Z.eqb_eq. intros [[[-> ->] ->] ->]. reflexivity.
Qed.

Definition binary64_agrees (radius : Z) : bool :=
  forallb (fun i => color_eqb (ring_color_binary64 radius i)
                              (png.ring_color radius i))
          (Py.range radius).

(** For every radius up to 128 (every size up to 273, which covers the sizes
    128, 32, 64 and 256 the script asks for), each ring colour computed in
    binary64 is the one computed over the rationals. *)
Lemma gradient_binary64_agrees radius i :
  0 < radius <= 128 -> In i (Py.range radius) ->
  ring_color_binary64 radius i = png.ring_color radius i.
Proof.
  intros Hr Hi.
  assert (Hall : forallb binary64_agrees (Py.range 129) = true)
    by (vm_compute; reflexivity).
  rewrite forallb_forall in Hall.
  specialize (Hall radius (proj2 (In_range radius 129) ltac:(lia))).
  unfold binary64_agrees in Hall. rewrite forallb_forall in Hall.
  apply color_eqb_eq, Hall, Hi.
Qed.

Lemma hq_gradient_filter c r :
  hq.gradient c r
  = map (hq.ring c r)
        (filter (fun i => 0 <? hq.current_radius r i) (Py.range 50)).
Proof.
  unfold hq.gradient.
  induction (Py.range 50) as [|i l IH]; cbn [flat_map filter]; [reflexivity|].
  rewrite IH. now destruct (0 <? hq.current_radius r i).
Qed.

Lemma hq_current_radius_positive r i :
  1 <= r -> 0 <= i < 50 -> 0 < hq.current_radius r i.
Proof.
  intros Hr Hi. unfold hq.current_radius.
  assert (i * r / 50 < r) by (apply Z.div_lt_upper_bound; nia).
  lia.
Qed.

(** With a radius of at least 1 every index of [range(50)] has its ring. *)
Lemma hq_gradient_fifty c r :
  1 <= r -> hq.gradient c r = map (hq.ring c r) (Py.range 50).
Proof.
  intros Hr. rewrite hq_gradient_filter. f_equal.
  apply forallb_filter_id, forallb_forall.
  intros i Hi. apply In_range in Hi.
  apply Z.ltb_lt, hq_current_radius_positive; lia.
Qed.

Lemma hq_ops_fifty fnt size :
  17 <= size ->
  hq.ops fnt size
  = (map (hq.ring (hq.center size) (hq.radius size)) (Py.range 50)
       ++ hq.decoration fnt (hq.center size) (hq.radius size))%list.
Proof.
  intros Hsize. unfold hq.ops. rewrite hq_gradient_fifty; [reflexivity|].
  rewrite hq.radius_eq. lia.
Qed.

Lemma hq_iteration_skips c r i img :
  hq.current_radius r i <= 0 ->
  create_hq_logo.gradient_iteration c r 50 i img = (Returned tt, img).
Proof.
  intros H. unfold create_hq_logo.gradient_iteration.
  change (r - i * r / 50) with (hq.current_radius r i).
  now destruct (Z.ltb_spec 0 (hq.current_radius r i)); [lia|].
Qed.

Lemma hq_iteration_draws c r i img :
  0 < hq.current_radius r i ->
  create_hq_logo.gradient_iteration c r 50 i img = draw (hq.ring c r i) img.
Proof.
  intros H. unfold create_hq_logo.gradient_iteration.
  change (r - i * r / 50) with (hq.current_radius r i).
  now destruct (Z.ltb_spec 0 (hq.current_radius r i)); [|lia].
Qed.

(** C8, as stated, fails on "decreasing alpha" in [create_bsl_logo]: at
    size 530 the radius is 257 and the rings of index 128 and 129, drawn
    one after the other, both have alpha 127 (the truncations of 127.996
    and 127.004), in binary64 as over the rationals. *)
Lemma bsl_ring_alphas_tie :
  exists img,
    fst (create_logo_png.create_bsl_logo 530 bare_world) = Returned img
    /\ nth 128 (draw_ops img) (Line [] None None)
       = Ellipse (136, 136, 394, 394) (Some (172, 55, 35, 127)) None None
    /\ nth 129 (draw_ops img) (Line [] None None)
       = Ellipse (137, 137, 393, 393) (Some (172, 54, 34, 127)) None None
    /\ alpha_binary64 257 128 = 127
    /\ alpha_binary64 257 129 = 127.
Proof.
  rewrite png.create_bsl_logo_run by (unfold max_side; lia).
  eexists. split; [reflexivity|].
  repeat split; vm_compute; reflexivity.
Qed.

(** C8 (amended).  In [create_hq_bsl_logo], a gradient iteration whose
    computed radius is non-positive draws nothing, and one whose radius is
    positive draws one filled circle of that radius whose colour is the
    truncated linear interpolation from (206, 66, 43) to (139, 44, 27) at
    i/50 and whose alpha, the truncation of 229.5 * (50 - i) / 50, strictly
    decreases with i; from size 32 on the returned image has all fifty
    rings.  In [create_bsl_logo], every iteration of [range(radius)] has
    the positive radius [radius - i] and draws one filled circle of that
    radius, with the colour interpolated in the same way at i/radius and
    the alpha the truncation of 255 * (radius - i) / radius, which never
    increases with i and strictly decreases when radius <= 255: there is no
    skip branch and no ring of non-positive radius. *)
Theorem gradient_edge_policy (size : Z) (w : world) (c r : Z) :
  (forall i img,
      In i (Py.range 50) ->
      (hq.current_radius r i <= 0 ->
       create_hq_logo.gradient_iteration c r 50 i img = (Returned tt, img))
      /\ (0 < hq.current_radius r i ->
          create_hq_logo.gradient_iteration c r 50 i img
          = draw (disk (c, c) (hq.current_radius r i)
                       (lerp 206 139 i 50, lerp 66 44 i 50, lerp 43 27 i 50,
                        ramp 2295 10 i 50)) img))
  /\ (forall i j, 0 <= i < j -> j < 50 -> ramp 2295 10 j 50 < ramp 2295 10 i 50)
  /\ (32 <= size -> size * 4 <= max_side ->
      exists img,
        fst (create_hq_logo.create_hq_bsl_logo size w) = Returned img
        /\ draw_ops img
           = (map (hq.ring (hq.center size) (hq.radius size)) (Py.range 50)
                ++ hq.decoration (loaded_font w 40) (hq.center size)
                                 (hq.radius size))%list)
  /\ (forall i img,
         In i (Py.range r) ->
         0 < r - i
         /\ create_logo_png.gradient_iteration c r i img
            = draw (disk (c, c) (r - i)
                         (lerp 206 139 i r, lerp 66 44 i r, lerp 43 27 i r,
                          ramp 255 1 i r)) img)
  /\ (forall i j, 0 <= i <= j -> j < r -> ramp 255 1 j r <= ramp 255 1 i r)
  /\ (forall i j, 0 <= i < j -> j < r -> r <= 255 ->
                  ramp 255 1 j r < ramp 255 1 i r)
  /\ (32 <= size <= max_side ->
      exists img,
        fst (create_logo_png.create_bsl_logo size w) = Returned img
        /\ draw_ops img
           = (map (png.ring (png.center size) (png.radius size))
                  (Py.range (png.radius size))
                ++ png.decoration (loaded_font w 10) (png.center size)
                                  (png.radius size))%list).
Proof.
  split; [|split; [|split; [|split; [|split; [|split]]]]].
  - intros i img Hi. split; intros Hr.
    + now apply hq_iteration_skips.
    + rewrite hq_iteration_draws by assumption.
      unfold hq.ring. now rewrite (hq_ring_color_exact i Hi).
  - intros i j Hij Hj. apply ramp_decreasing; lia.
  - intros Hlo Hhi. rewrite hq.create_hq_bsl_logo_run by assumption.
    eexists. split; [reflexivity|].
    rewrite hq_result_draw_ops. apply hq_ops_fifty. lia.
  - intros i img Hi. apply In_range in Hi. split; [lia|].
    unfold create_logo_png.gradient_iteration.
    rewrite png_alpha_exact, !png_channel_exact by lia.
    unfold disk; cbn [fst snd]. do 2 f_equal.
    repeat (apply pair_equal_spec; split); lia.
  - intros i j Hij Hj. apply ramp_nonincreasing; lia.
  - intros i j Hij Hj Hr. apply ramp_decreasing; lia.
  - intros Hsize. rewrite png.create_bsl_logo_run by assumption.
    eexists. split; [reflexivity|].
    now rewrite png_result_draw_ops.
Qed.

Lemma gradient_edge_policy_witness :
  create_hq_logo.gradient_iteration 0 (-10) 50 49 (mkImage RGBA (0, 0) (0, 0, 0, 0) [])
  = (Returned tt, mkImage RGBA (0, 0) (0, 0, 0, 0) [])
  /\ create_hq_logo.gradient_iteration 64 32 50 1 (mkImage RGBA (128, 128) (0, 0, 0, 0) [])
     = draw (disk (64, 64) 32 (204, 65, 42, 224))
            (mkImage RGBA (128, 128) (0, 0, 0, 0) [])
  /\ ramp 2295 10 49 50 < ramp 2295 10 0 50
  /\ (exists img,
         fst (create_hq_logo.create_hq_bsl_logo 32 bare_world) = Returned img
         /\ draw_ops img
            = (map (hq.ring (hq.center 32) (hq.radius 32)) (Py.range 50)
                 ++ hq.decoration (loaded_font bare_world 40) (hq.center 32)
                                  (hq.radius 32))%list)
  /\ create_logo_png.gradient_iteration 16 8 3 (mkImage RGBA (32, 32) (0, 0, 0, 0) [])
     = draw (disk (16, 16) 5 (180, 57, 37, 159))
            (mkImage RGBA (32, 32) (0, 0, 0, 0) []).
Proof.
  pose proof (gradient_edge_policy 32 bare_world 0 (-10)) as (Hskip & _).
  pose proof (gradient_edge_policy 32 bare_world 64 32)
    as (Hdraw & Hdec & Hhq & _).
  pose proof (gradient_edge_policy 32 bare_world 16 8) as (_ & _ & _ & Hpng & _).
  split; [|split; [|split; [|split]]].
  - apply (Hskip 49); [apply In_range; lia | vm_compute; discriminate].
  - apply (Hdraw 1); [apply In_range; lia | reflexivity].
  - apply Hdec; lia.
  - apply Hhq; unfold max_side; lia.
  - apply (Hpng 3). apply In_range; lia.
Defined.

(** C10.  In [create_hq_bsl_logo] the disk radius is [2*size - 32], which is
    at least 1 exactly when [size >= 17].  For every such size each of the
    50 gradient iterations computes a strictly positive [current_radius]
    (because [i * radius // 50 < radius] for i in 0..49), so the iteration
    always draws its ring, every ring is accepted by the library, and the
    gradient loop ends having drawn exactly 50 rings, one per index of
    [range(50)]; from size 32 on, where the function returns, they are the
    first 50 draw calls of the returned image. *)
Theorem fifty_rings_from_size_17 (size : Z) (w : world) :
  hq.radius size = 2 * size - 32
  /\ (1 <= hq.radius size <-> 17 <= size)
  /\ (17 <= size ->
      (forall i, In i (Py.range 50) ->
                 i * hq.radius size / 50 < hq.radius size
                 /\ 0 < hq.current_radius (hq.radius size) i)
      /\ (forall i img,
             In i (Py.range 50) ->
             create_hq_logo.gradient_iteration (hq.center size) (hq.radius size)
                                               50 i img
             = draw (hq.ring (hq.center size) (hq.radius size) i) img
             /\ refusal (hq.ring (hq.center size) (hq.radius size) i) = None)
      /\ (forall img,
             for_each (Py.range 50)
                      (fun i => create_hq_logo.gradient_iteration
                                  (hq.center size) (hq.radius size) 50 i) img
             = (Returned tt,
                paint (map (hq.ring (hq.center size) (hq.radius size))
                           (Py.range 50)) img))
      /\ List.length (map (hq.ring (hq.center size) (hq.radius size)) (Py.range 50))
         = 50%nat)
  /\ (32 <= size -> size * 4 <= max_side ->
      exists img,
        fst (create_hq_logo.create_hq_bsl_logo size w) = Returned img
        /\ draw_ops img
           = (map (hq.ring (hq.center size) (hq.radius size)) (Py.range 50)
                ++ hq.decoration (loaded_font w 40) (hq.center size)
                                 (hq.radius size))%list).
Proof.
  pose proof (hq.radius_eq size) as Hr.
  split; [exact Hr|]. split; [lia|]. split.
  - intros Hsize.
    assert (Hpos : forall i, In i (Py.range 50) ->
                             0 < hq.current_radius (hq.radius size) i).
    { intros i Hi. apply In_range in Hi.
      apply hq_current_radius_positive; lia. }
    split; [|split; [|split]].
    + intros i Hi. split; [|now apply Hpos].
      specialize (Hpos i Hi). unfold hq.current_radius in Hpos. lia.
    + intros i img Hi. split.
      * apply hq_iteration_draws. now apply Hpos.
      * apply hq.ring_accepted. now apply Hpos.
    + intros img. rewrite hq.gradient_issues, for_each_draw.
      destruct (issued_accepted _ (hq.gradient_accepted (hq.center size)
                                                        (hq.radius size)))
        as [-> ->].
      now rewrite hq_gradient_fifty by lia.
    + now rewrite length_map, length_range.
  - intros Hlo Hhi. rewrite hq.create_hq_bsl_logo_run by assumption.
    eexists. split; [reflexivity|].
    rewrite hq_result_draw_ops. apply hq_ops_fifty. lia.
Qed.

Lemma fifty_rings_from_size_17_witness :
  0 < hq.current_radius (hq.radius 17) 49
  /\ for_each (Py.range 50)
              (fun i => create_hq_logo.gradient_iteration
                          (hq.center 17) (hq.radius 17) 50 i)
              (mkImage RGBA (68, 68) (0, 0, 0, 0) [])
     = (Returned tt,
        paint (map (hq.ring (hq.center 17) (hq.radius 17)) (Py.range 50))
              (mkImage RGBA (68, 68) (0, 0, 0, 0) []))
  /\ exists img,
      fst (create_hq_logo.create_hq_bsl_logo 32 bare_world) = Returned img
      /\ draw_ops img
         = (map (hq.ring (hq.center 32) (hq.radius 32)) (Py.range 50)
              ++ hq.decoration (loaded_font bare_world 40) (hq.center 32)
                               (hq.radius 32))%list.
Proof.
  destruct (fifty_rings_from_size_17 17 bare_world) as (_ & _ & H17 & _).
  destruct (H17 ltac:(lia)) as (Hpos & _ & Hloop & _).
  destruct (fifty_rings_from_size_17 32 bare_world) as (_ & _ & _ & H32).
  split; [|split].
  - apply Hpos, In_range. lia.
  - apply Hloop.
  - apply H32; unfold max_side; lia.
Defined.

(** * Saving files *)

Definition append_trace (evs : list event) (w : world) : world :=
  mkWorld (truetype_fonts w) (writable w) (clock w) (entropy w) (trace w ++ evs).

(** The file names of the save attempts, of the completed saves and of the
    removals recorded in a stretch of trace. *)
Definition attempts (evs : list event) : list string :=
  flat_map (fun e => match e with
                     | FileSaved f _ _ _ | SaveFailed f => [f]
                     | _ => []
                     end) evs.

Definition saved (evs : list event) : list string :=
  flat_map (fun e => match e with FileSaved f _ _ _ => [f] | _ => [] end) evs.

Definition removed (evs : list event) : list string :=
  flat_map (fun e => match e with FileRemoved f => [f] | _ => [] end) evs.

(** A script seen as a straight line of console lines and saves; the image
    saved is the one rendered in the environment of that moment. *)
Inductive action :=
| Say (line : string)
| Store (filename format : string) (optimize : bool) (render : world -> image).

Fixpoint perform (plan : list action) : io unit :=
  match plan with
  | [] => ret tt
  | Say line :: rest => print line ;;; perform rest
  | Store filename format optimize render :: rest =>
      fun w => (Image_save filename format optimize (render w) ;;; perform rest) w
  end.

Definition targets (plan : list action) : list string :=
  flat_map (fun a => match a with Store f _ _ _ => [f] | Say _ => [] end) plan.

Lemma append_trace_emit e evs w :
  append_trace evs (emit e w) = append_trace (e :: evs) w.
Proof.
  unfold append_trace, emit; cbn [truetype_fonts writable clock entropy trace].
  now rewrite <- app_assoc.
Qed.

(** The first save that cannot be written ends the run. *)
Lemma perform_fatal plan :
  forall w pre f post,
    targets plan = (pre ++ f :: post)%list ->
    (forall g, In g pre -> writable w g = true) ->
    writable w f = false ->
    exists evs,
      perform plan w = (Raised (OSError f), append_trace evs w)
      /\ attempts evs = (pre ++ [f])%list
      /\ saved evs = pre
      /\ removed evs = []
      /\ last evs (Printed "") = SaveFailed f.
Proof.
  induction plan as [|a plan IH]; intros w pre f post Ht Hpre Hf.
  - destruct pre; discriminate Ht.
  - destruct a as [line | f0 fmt o render].
    + destruct (IH (emit (Printed line) w) pre f post Ht Hpre Hf)
        as (evs & Hrun & Hatt & Hsav & Hrem & Hlast).
      exists (Printed line :: evs).
      cbn [perform]. unfold bind at 1, print at 1.
      rewrite Hrun, append_trace_emit.
      repeat split; try assumption.
      destruct evs; [discriminate Hlast | exact Hlast].
    + destruct pre as [|p pre]; cbn in Ht; injection Ht as <- Ht.
      * exists [SaveFailed f0].
        cbn [perform]. unfold bind, Image_save. rewrite Hf.
        repeat split.
      * assert (Hp : writable w f0 = true) by (apply Hpre; now left).
        destruct (IH (emit (FileSaved f0 (render w) fmt o) w) pre f post Ht
                     (fun g Hg => Hpre g (or_intror Hg)) Hf)
          as (evs & Hrun & Hatt & Hsav & Hrem & Hlast).
        exists (FileSaved f0 (render w) fmt o :: evs).
        cbn [perform]. unfold bind at 1, Image_save at 1.
        rewrite Hp, Hrun, append_trace_emit.
        repeat split; try assumption.
        -- unfold attempts in *. cbn [flat_map app]. now rewrite Hatt.
        -- unfold saved in *. cbn [flat_map app]. now rewrite Hsav.
        -- destruct evs; [discriminate Hlast | exact Hlast].
Qed.

(** When every target can be written the run returns, having saved each
    target once, in order. *)
Lemma perform_ok plan :
  forall w,
    (forall g, In g (targets plan) -> writable w g = true) ->
    exists evs,
      perform plan w = (Returned tt, append_trace evs w)
      /\ attempts evs = targets plan
      /\ saved evs = targets plan
      /\ removed evs = [].
Proof.
  induction plan as [|a plan IH]; intros w Hall.
  - exists []. repeat split.
    unfold append_trace; cbn. rewrite app_nil_r. now destruct w.
  - destruct a as [line | f0 fmt o render].
    + destruct (IH (emit (Printed line) w) Hall) as (evs & Hrun & Hatt & Hsav & Hrem).
      exists (Printed line :: evs).
      cbn [perform]. unfold bind at 1, print at 1.
      rewrite Hrun, append_trace_emit. repeat split; assumption.
    + assert (Hp : writable w f0 = true) by (apply Hall; now left).
      destruct (IH (emit (FileSaved f0 (render w) fmt o) w)
                   (fun g Hg => Hall g (or_intror Hg)))
        as (evs & Hrun & Hatt & Hsav & Hrem).
      exists (FileSaved f0 (render w) fmt o :: evs).
      cbn [perform]. unfold bind at 1, Image_save at 1.
      rewrite Hp, Hrun, append_trace_emit.
      unfold attempts, saved, targets in *.
      repeat split; try assumption; cbn [flat_map app]; congruence.
Qed.

(** ** The two scripts as plans *)

Lemma step_say line k rest w :
  (forall w', k tt w' = perform rest w') ->
  bind (print line) k w = perform (Say line :: rest) w.
Proof. intros H. cbn [perform]. unfold bind, print. apply H. Qed.

Lemma step_store f fmt o img render k rest w :
  img = render w ->
  (forall w', k tt w' = perform rest w') ->
  bind (Image_save f fmt o img) k w = perform (Store f fmt o render :: rest) w.
Proof.
  intros -> H. cbn [perform]. unfold bind, Image_save.
  destruct (writable w f); [apply H | reflexivity].
Qed.

Lemma step_assoc {A B C} (m : io A) (f : A -> io B) (g : B -> io C) w :
  bind (bind m f) g w = bind m (fun a => bind (f a) g) w.
Proof. unfold bind. now destruct (m w) as [[a | e] w']. Qed.

Lemma step_ret {A B} (a : A) (k : A -> io B) w : bind (ret a) k w = k a w.
Proof. reflexivity. Qed.

Lemma step_hq {B} size (k : image -> io B) w :
  32 <= size -> size * 4 <= max_side ->
  bind (create_hq_logo.create_hq_bsl_logo size) k w
  = k (hq.result (loaded_font w 40) size) w.
Proof. intros. unfold bind. now rewrite hq.create_hq_bsl_logo_run. Qed.

Lemma step_png {B} size (k : image -> io B) w :
  32 <= size <= max_side ->
  bind (create_logo_png.create_bsl_logo size) k w
  = k (png.result (loaded_font w 10) size) w.
Proof. intros. unfold bind. now rewrite png.create_bsl_logo_run. Qed.

(** The image the icon loop saves for [size]. *)
Definition icon (size : Z) (w : world) : image :=
  if size <=? 24 then simplified.result size
  else hq.result (loaded_font w 40) size.

(** The sizes of the icon loop are all sizes at which the selected
    generator returns. *)
Lemma step_select {B} size (k : image -> io B) w :
  4 <= size <= 24 \/ 32 <= size /\ size * 4 <= max_side ->
  bind (create_hq_logo.select_logo size) k w = k (icon size w) w.
Proof.
  intros H. unfold create_hq_logo.select_logo, icon.
  destruct (Z.leb_spec size 24).
  - unfold bind.
    now rewrite simplified.create_simplified_logo_run by (unfold max_side; lia).
  - apply step_hq; lia.
Qed.

Definition icon_file (suffix : string) : string :=
  "vscode-extension/images/bsl-analyzer-" ++ suffix ++ ".png".

Definition icon_label (entry : Z * string) : string :=
  Py.str (fst entry) ++ "x" ++ Py.str (fst entry) ++ " -> " ++ icon_file (snd entry).

Definition hq_plan : list action :=
  ([ Say "Creating high-quality BSL Analyzer icons...";
     Store "vscode-extension/images/bsl-analyzer-logo.png" "PNG" true
           (fun w => hq.result (loaded_font w 40) 128);
     Say "Main logo created: bsl-analyzer-logo.png" ]
   ++ flat_map (fun entry : Z * string =>
                  [ Say ("Creating " ++ Py.str (fst entry) ++ "x"
                                     ++ Py.str (fst entry) ++ " icon...");
                    Store (icon_file (snd entry)) "PNG" true (icon (fst entry));
                    Say ("  Saved: " ++ icon_file (snd entry)) ])
               create_hq_logo.sizes
   ++ [ Say (create_hq_logo.newline ++ "Successfully created "
               ++ Py.str (Py.len create_hq_logo.sizes + 1)
               ++ " high-quality icons:");
        Say "  - bsl-analyzer-logo.png (128x128)" ]
   ++ map (fun entry => Say ("  - " ++ icon_label entry)) create_hq_logo.sizes
   ++ [ Say (create_hq_logo.newline ++ "Features:");
        Say "  + High-quality anti-aliasing";
        Say "  + Smooth gradients and shadows";
        Say "  + Optimized for different sizes";
        Say "  + Professional appearance in VSCode" ])%list.

Definition png_plan : list action :=
  ([ Store "vscode-extension/images/bsl-analyzer-logo.png" "PNG" false
           (fun w => png.result (loaded_font w 10) 128);
     Say "Logo created: vscode-extension/images/bsl-analyzer-logo.png" ]
   ++ flat_map (fun size =>
                  [ Store ("vscode-extension/images/bsl-analyzer-logo-"
                             ++ Py.str size ++ ".png") "PNG" false
                          (fun w => png.result (loaded_font w 10) size);
                    Say ("Logo " ++ Py.str size ++ "x" ++ Py.str size ++ " created") ])
               [32; 64; 256])%list.

Ltac run_step :=
  cbv beta iota;
  lazymatch goal with
  | |- bind (bind _ _) _ _ = _ => rewrite step_assoc
  | |- bind (ret _) _ _ = _ => rewrite step_ret
  | |- bind (print _) _ _ = _ => apply step_say; intros ?
  | |- bind (Image_save _ _ _ _) _ _ = _ => apply step_store; [reflexivity | intros ?]
  | |- bind (create_hq_logo.create_hq_bsl_logo _) _ _ = _ =>
      rewrite step_hq by (unfold max_side; lia)
  | |- bind (create_logo_png.create_bsl_logo _) _ _ = _ =>
      rewrite step_png by (unfold max_side; lia)
  | |- bind (create_hq_logo.select_logo _) _ _ = _ =>
      rewrite step_select by (unfold max_side; lia)
  | |- bind create_hq_logo.create_optimized_icons _ _ = _ =>
      unfold create_hq_logo.create_optimized_icons
  | |- bind (for_fold _ _ _) _ _ = _ => cbn [for_fold create_hq_logo.sizes]
  | |- bind (for_each _ _) _ _ = _ => cbn [for_each app]
  | |- for_each _ _ _ = _ => cbn [for_each app]
  end.

Lemma hq_main_plan w : create_hq_logo.main w = perform hq_plan w.
Proof.
  unfold create_hq_logo.main.
  cbv beta iota zeta delta
      [hq_plan app flat_map map create_hq_logo.sizes icon_label icon_file fst snd].
  repeat run_step.
  reflexivity.
Qed.

Lemma png_main_plan w : create_logo_png.main w = perform png_plan w.
Proof.
  unfold create_logo_png.main.
  cbv beta iota zeta delta [png_plan app flat_map].
  repeat run_step.
  reflexivity.
Qed.

(** The files each script writes, in order. *)
Definition hq_targets : list string :=
  [ "vscode-extension/images/bsl-analyzer-logo.png";
    "vscode-extension/images/bsl-analyzer-small.png";
    "vscode-extension/images/bsl-analyzer-medium.png";
    "vscode-extension/images/bsl-analyzer-large.png";
    "vscode-extension/images/bsl-analyzer-xlarge.png";
    "vscode-extension/images/bsl-analyzer-icon.png" ].

Definition png_targets : list string :=
  [ "vscode-extension/images/bsl-analyzer-logo.png";
    "vscode-extension/images/bsl-analyzer-logo-32.png";
    "vscode-extension/images/bsl-analyzer-logo-64.png";
    "vscode-extension/images/bsl-analyzer-logo-256.png" ].

(** A script run whose first unwritable target is [f]: the run ends with
    [OSError] raised out of the script; the trace it added holds one save
    attempt per earlier target and one for [f], in order, and nothing after
    the failed attempt; the earlier targets stay saved and nothing is
    removed.  When every target is writable, the script returns having
    saved exactly [file_targets]. *)
Definition write_failure_is_fatal (main : io unit) (file_targets : list string)
  : Prop :=
  (forall w pre f post,
      file_targets = (pre ++ f :: post)%list ->
      (forall g, In g pre -> writable w g = true) ->
      writable w f = false ->
      exists evs,
        main w = (Raised (OSError f), append_trace evs w)
        /\ attempts evs = (pre ++ [f])%list
        /\ saved evs = pre
        /\ removed evs = []
        /\ last evs (Printed "") = SaveFailed f)
  /\ (forall w,
         (forall g, In g file_targets -> writable w g = true) ->
         exists evs,
           main w = (Returned tt, append_trace evs w)
           /\ attempts evs = file_targets
           /\ saved evs = file_targets
           /\ removed evs = []).

Lemma plan_write_failure_is_fatal main plan file_targets :
  (forall w, main w = perform plan w) ->
  targets plan = file_targets ->
  write_failure_is_fatal main file_targets.
Proof.
  intros Hmain <-. split.
  - intros w pre f post Ht Hpre Hf. rewrite Hmain.
    now apply perform_fatal with (post := post).
  - intros w Hall. rewrite Hmain. now apply perform_ok.
Qed.

(** C9.  In both scripts a save that fails is fatal and unrecovered: the
    exception leaves the script at the first target that cannot be written,
    after exactly one attempt on it (no retry), with nothing run afterwards
    and nothing removed (the files saved before it stay).  This holds at
    every file the scripts write. *)
Theorem save_failure_is_fatal :
  write_failure_is_fatal create_hq_logo.main hq_targets
  /\ write_failure_is_fatal create_logo_png.main png_targets.
Proof.
  split.
  - apply plan_write_failure_is_fatal with (plan := hq_plan);
      [exact hq_main_plan | reflexivity].
  - apply plan_write_failure_is_fatal with (plan := png_plan);
      [exact png_main_plan | reflexivity].
Qed.

(** Every path is writable but the medium icon. *)
Definition medium_unwritable : world :=
  mkWorld (fun _ => false)
          (fun f => negb (f =? "vscode-extension/images/bsl-analyzer-medium.png")%string)
          0 [] [].

Lemma save_failure_is_fatal_witness :
  exists evs,
    create_hq_logo.main medium_unwritable
    = (Raised (OSError "vscode-extension/images/bsl-analyzer-medium.png"),
       append_trace evs medium_unwritable)
    /\ attempts evs
       = [ "vscode-extension/images/bsl-analyzer-logo.png";
           "vscode-extension/images/bsl-analyzer-small.png";
           "vscode-extension/images/bsl-analyzer-medium.png" ]
    /\ saved evs
       = [ "vscode-extension/images/bsl-analyzer-logo.png";
           "vscode-extension/images/bsl-analyzer-small.png" ]
    /\ removed evs = []
    /\ last evs (Printed "")
       = SaveFailed "vscode-extension/images/bsl-analyzer-medium.png".
Proof.
  apply (proj1 (proj1 save_failure_is_fatal) medium_unwritable
               [ "vscode-extension/images/bsl-analyzer-logo.png";
                 "vscode-extension/images/bsl-analyzer-small.png" ]
               "vscode-extension/images/bsl-analyzer-medium.png"
               [ "vscode-extension/images/bsl-analyzer-large.png";
                 "vscode-extension/images/bsl-analyzer-xlarge.png";
                 "vscode-extension/images/bsl-analyzer-icon.png" ]).
  - reflexivity.
  - intros g [<- | [<- | []]]; reflexivity.
  - reflexivity.
Defined.

(** * Geometry of the requests *)

(** Every coordinate pair a draw call passes. *)
Definition corners (op : draw_op) : list point :=
  match op with
  | Ellipse (x0, y0, x1, y1) _ _ _
  | Rectangle (x0, y0, x1, y1) _ _ _
  | RoundedRectangle (x0, y0, x1, y1) _ _ _ _ => [(x0, y0); (x1, y1)]
  | Line pts _ _ => pts
  | Text xy _ _ _ _ => [xy]
  end.

(** A coordinate pair names a pixel of a canvas of the given size. *)
Definition on_canvas (size : Z * Z) (p : point) : Prop :=
  0 <= fst p < fst size /\ 0 <= snd p < snd size.

Definition boxes_well_formed (img : image) : Prop :=
  Forall (fun op => Forall well_formed (box_of op)) (draw_ops img).

Definition requests_on_canvas (img : image) : Prop :=
  Forall (fun op => Forall (on_canvas (allocated img)) (corners op)) (draw_ops img).

Lemma hq_current_radius_le r i : 0 <= r -> 0 <= i -> hq.current_radius r i <= r.
Proof.
  intros Hr Hi. unfold hq.current_radius.
  assert (0 <= i * r / 50) by (apply Z.div_pos; nia). lia.
Qed.

Ltac explicit_decoration :=
  cbv [hq.decoration hq.inner_outline hq.emblem hq.badge_text
       png.decoration png.inner_circle png.emblem png.badge_text
       app map flat_map combine segments
       create_hq_logo.left_points create_hq_logo.right_points
       create_hq_logo.points create_hq_logo.connections
       create_logo_png.bracket_points_left create_logo_png.bracket_points_right
       create_logo_png.points create_logo_png.connections
       hq.marker stroke disk fst snd].

Ltac each_request :=
  repeat (constructor; cbn [box_of corners well_formed on_canvas fst snd]).

(** X1.  [create_hq_bsl_logo] returns an image exactly when [size >= 32]
    and the side [4 * size] of its canvas fits a C [int].  For a size from 0
    to 31 it raises [ValueError]: the box of the inner outline, of radius
    [2*size - 64], is inverted.  For a negative size [Image.new] raises. *)
Theorem hq_returns_exactly_from_32 (size : Z) (w : world) :
  ((exists img, fst (create_hq_logo.create_hq_bsl_logo size w) = Returned img)
   <-> 32 <= size /\ size * 4 <= max_side)
  /\ (0 <= size < 32 ->
      create_hq_logo.create_hq_bsl_logo size w
      = (Raised (ValueError "x1 must be greater than or equal to x0"), w))
  /\ (size < 0 ->
      create_hq_logo.create_hq_bsl_logo size w
      = (Raised (ValueError "Width and height must be >= 0"), w)).
Proof.
  split; [|split].
  - split.
    + intros [img Himg].
      destruct (Z.lt_ge_cases size 0) as [Hneg | Hnonneg].
      { rewrite hq.create_hq_bsl_logo_refused in Himg by assumption.
        discriminate Himg. }
      destruct (Z.lt_ge_cases size 32) as [Hsmall | Hbig].
      { rewrite hq.create_hq_bsl_logo_raises in Himg by lia. discriminate Himg. }
      destruct (Z.lt_ge_cases max_side (size * 4)) as [Hhuge | Hfits]; [|lia].
      rewrite hq.create_hq_bsl_logo_too_large in Himg by assumption.
      discriminate Himg.
    + intros [Hlo Hhi]. rewrite hq.create_hq_bsl_logo_run by assumption.
      now eexists.
  - apply hq.create_hq_bsl_logo_raises.
  - apply hq.create_hq_bsl_logo_refused.
Qed.

Lemma hq_returns_exactly_from_32_witness :
  create_hq_logo.create_hq_bsl_logo 24 bare_world
  = (Raised (ValueError "x1 must be greater than or equal to x0"), bare_world).
Proof.
  apply (proj1 (proj2 (hq_returns_exactly_from_32 24 bare_world))). lia.
Defined.

(** X2.  [create_bsl_logo] returns an image exactly when [size >= 32] and
    [size] fits a C [int].  For a size from 0 to 31 it raises [ValueError]:
    the box of the inner circle, of radius [size // 2 - 16], is inverted.
    For a negative size [Image.new] raises. *)
Theorem png_returns_exactly_from_32 (size : Z) (w : world) :
  ((exists img, fst (create_logo_png.create_bsl_logo size w) = Returned img)
   <-> 32 <= size <= max_side)
  /\ (0 <= size < 32 ->
      create_logo_png.create_bsl_logo size w
      = (Raised (ValueError "x1 must be greater than or equal to x0"), w))
  /\ (size < 0 ->
      create_logo_png.create_bsl_logo size w
      = (Raised (ValueError "Width and height must be >= 0"), w)).
Proof.
  split; [|split].
  - split.
    + intros [img Himg].
      destruct (Z.lt_ge_cases size 0) as [Hneg | Hnonneg].
      { rewrite png.create_bsl_logo_refused in Himg by assumption.
        discriminate Himg. }
      destruct (Z.lt_ge_cases size 32) as [Hsmall | Hbig].
      { rewrite png.create_bsl_logo_raises in Himg by lia. discriminate Himg. }
      destruct (Z.lt_ge_cases max_side size) as [Hhuge | Hfits]; [|lia].
      rewrite png.create_bsl_logo_too_large in Himg by assumption.
      discriminate Himg.
    + intros Hsize. rewrite png.create_bsl_logo_run by assumption.
      now eexists.
  - apply png.create_bsl_logo_raises.
  - apply png.create_bsl_logo_refused.
Qed.

Lemma png_returns_exactly_from_32_witness :
  create_logo_png.create_bsl_logo 31 bare_world
  = (Raised (ValueError "x1 must be greater than or equal to x0"), bare_world).
Proof.
  apply (proj1 (proj2 (png_returns_exactly_from_32 31 bare_world))). lia.
Defined.

Lemma simplified_canvas_allocated size :
  allocated (simplified.canvas size) = (size, size).
Proof.
  unfold simplified.canvas.
  rewrite simplified.paint_simplified_issues, for_each_draw. reflexivity.
Qed.

(** X3.  The boxes [create_simplified_logo] passes to the library are all
    well formed exactly when [size >= 4] (below that the disk's box
    [[2, 2, size-2, size-2]] is inverted).  From size 5 on every coordinate
    it passes names a pixel of the size-by-size canvas; at size 4 the right
    bar reaches x = 4, one past the last pixel column.  The canvas spoken
    of is the one the function returns when it returns. *)
Theorem simplified_boxes_from_4 (size : Z) :
  (boxes_well_formed (simplified.canvas size) <-> 4 <= size)
  /\ (5 <= size -> requests_on_canvas (simplified.canvas size))
  /\ ~ requests_on_canvas (simplified.canvas 4)
  /\ (forall w,
         4 <= size <= max_side ->
         create_hq_logo.create_simplified_logo size w
         = (Returned (simplified.canvas size), w)).
Proof.
  unfold boxes_well_formed, requests_on_canvas.
  rewrite !simplified_canvas_allocated, !simplified.canvas_draw_ops.
  split; [split|split; [|split]].
  - unfold flat_composition. cbv zeta. cbn [issued]. intros H.
    apply Forall_inv in H. cbn [box_of] in H.
    apply Forall_inv in H. cbn [well_formed] in H. lia.
  - intros Hsize.
    destruct (issued_accepted _ (simplified.flat_composition_accepted size Hsize))
      as [-> _].
    unfold flat_composition. each_request; div_lia.
  - intros Hsize.
    destruct (issued_accepted
                _ (simplified.flat_composition_accepted size ltac:(lia)))
      as [-> _].
    unfold flat_composition. each_request; div_lia.
  - intros H.
    apply Forall_inv_tail, Forall_inv_tail, Forall_inv in H.
    apply Forall_inv_tail, Forall_inv in H.
    destruct H as [[_ H] _]. vm_compute in H. discriminate H.
  - intros w Hsize. rewrite simplified.create_simplified_logo_run by assumption.
    do 2 f_equal. unfold simplified.canvas.
    rewrite simplified.paint_simplified_issues, for_each_draw.
    destruct (issued_accepted
                _ (simplified.flat_composition_accepted size ltac:(lia)))
      as [-> _].
    reflexivity.
Qed.

Lemma simplified_boxes_from_4_witness :
  requests_on_canvas (simplified.canvas 16).
Proof. apply (proj1 (proj2 (simplified_boxes_from_4 16))). discriminate. Defined.

(** X4.  From size 32 on, where [create_hq_bsl_logo] returns, every
    coordinate it passed to a draw call names a pixel of its working canvas
    exactly when [size >= 77]: the decorations sit at fixed offsets of up to
    152 from the centre [2*size], so for smaller sizes (the 32 and 48 of the
    icon loop among them) part of the composition is requested outside the
    canvas. *)
Theorem hq_requests_on_canvas_from_77 (size : Z) (w : world) :
  32 <= size -> size * 4 <= max_side ->
  exists img,
    fst (create_hq_logo.create_hq_bsl_logo size w) = Returned img
    /\ (requests_on_canvas img <-> 77 <= size).
Proof.
  intros Hlo Hhi. rewrite hq.create_hq_bsl_logo_run by assumption.
  eexists. split; [reflexivity|].
  unfold requests_on_canvas. rewrite hq_result_draw_ops.
  unfold hq.ops, hq.result; cbn [allocated].
  rewrite Forall_app, hq_gradient_filter, hq.radius_eq, hq.center_eq. split.
  - intros [_ Hdec]. rewrite Forall_forall in Hdec.
    specialize (Hdec (RoundedRectangle
                        (2 * size + 120 - 32, 2 * size - 120 - 32,
                         2 * size + 120 + 32, 2 * size - 120 + 32)
                        8 (Some (255, 255, 255, 60)) (Some (255, 255, 255, 120))
                        (Some 2))).
    cbn [corners] in Hdec.
    assert (Hin : Forall (on_canvas (size * 4, size * 4))
                         [(2 * size + 120 - 32, 2 * size - 120 - 32);
                          (2 * size + 120 + 32, 2 * size - 120 + 32)]).
    { apply Hdec. explicit_decoration.
      repeat (first [left; reflexivity | right]). }
    pose proof (Forall_inv Hin) as H0.
    pose proof (Forall_inv (Forall_inv_tail Hin)) as H1.
    unfold on_canvas in H0, H1. cbn [fst snd] in H0, H1. div_lia.
  - intros Hsize. split.
    + apply Forall_map, Forall_forall. intros i Hi.
      apply filter_In in Hi. destruct Hi as [Hi Hpos].
      apply In_range in Hi. apply Z.ltb_lt in Hpos.
      pose proof (hq_current_radius_le (2 * size - 32) i ltac:(lia) ltac:(lia)).
      unfold hq.ring, disk. each_request; div_lia.
    + explicit_decoration. each_request; div_lia.
Qed.

Lemma hq_requests_on_canvas_from_77_witness :
  exists img,
    fst (create_hq_logo.create_hq_bsl_logo 48 bare_world) = Returned img
    /\ (requests_on_canvas img <-> 77 <= 48).
Proof.
  apply (hq_requests_on_canvas_from_77 48 bare_world); unfold max_side; lia.
Defined.

(** X5.  From size 32 on, where [create_bsl_logo] returns, every coordinate
    it passed to a draw call names a pixel of its canvas exactly when
    [size >= 77]: the decorations sit at fixed offsets of up to 38 from the
    centre [size // 2], so for the sizes 32 and 64 the script also asks for,
    part of the composition is requested outside the canvas. *)
Theorem png_requests_on_canvas_from_77 (size : Z) (w : world) :
  32 <= size <= max_side ->
  exists img,
    fst (create_logo_png.create_bsl_logo size w) = Returned img
    /\ (requests_on_canvas img <-> 77 <= size).
Proof.
  intros Hrange. rewrite png.create_bsl_logo_run by assumption.
  eexists. split; [reflexivity|].
  unfold requests_on_canvas. rewrite png_result_draw_ops.
  unfold png.ops, png.result; cbn [allocated].
  rewrite Forall_app. unfold png.gradient, png.radius, png.center. split.
  - intros [_ Hdec]. rewrite Forall_forall in Hdec.
    specialize (Hdec (Rectangle
                        (size / 2 + 30 - 8, size / 2 - 30 - 8,
                         size / 2 + 30 + 8, size / 2 - 30 + 8)
                        (Some (255, 255, 255, 50)) None None)).
    cbn [corners] in Hdec.
    assert (Hin : Forall (on_canvas (size, size))
                         [(size / 2 + 30 - 8, size / 2 - 30 - 8);
                          (size / 2 + 30 + 8, size / 2 - 30 + 8)]).
    { apply Hdec. explicit_decoration.
      repeat (first [left; reflexivity | right]). }
    pose proof (Forall_inv Hin) as H0.
    pose proof (Forall_inv (Forall_inv_tail Hin)) as H1.
    unfold on_canvas in H0, H1. cbn [fst snd] in H0, H1. div_lia.
  - intros Hsize. split.
    + apply Forall_map, Forall_forall. intros i Hi. apply In_range in Hi.
      unfold png.ring. each_request; div_lia.
    + explicit_decoration. each_request; div_lia.
Qed.

Lemma png_requests_on_canvas_from_77_witness :
  exists img,
    fst (create_logo_png.create_bsl_logo 64 bare_world) = Returned img
    /\ (requests_on_canvas img <-> 77 <= 64).
Proof.
  apply (png_requests_on_canvas_from_77 64 bare_world); unfold max_side; lia.
Defined.

(** * More on the gradient stage *)

Lemma hq_current_radius_nonpositive r i :
  r <= 0 -> 0 <= i < 50 -> hq.current_radius r i <= 0.
Proof.
  intros Hr Hi. unfold hq.current_radius.
  assert (r <= i * r / 50) by (apply Z.div_le_lower_bound; nia).
  lia.
Qed.

Lemma for_each_skips {A} (body : A -> Draw unit) l :
  (forall x img, In x l -> body x img = (Returned tt, img)) ->
  forall img, for_each l body img = (Returned tt, img).
Proof.
  induction l as [|x l IH]; intros H img; cbn [for_each]; [reflexivity|].
  unfold bind. rewrite (H x img (or_introl eq_refl)).
  apply IH. intros y img' Hy. apply H. now right.
Qed.

(** X6.  For every size up to 16 the disk radius [2*size - 32] is not
    positive and the gradient loop of [create_hq_bsl_logo] takes the skip
    branch fifty times, leaving the canvas as it was.  For such a size the
    function never returns, though: the first call after the loop, the
    inner outline, is refused.  The skip branch is only ever taken in runs
    that raise. *)
Theorem hq_no_ring_up_to_16 (size : Z) (w : world) :
  size <= 16 ->
  (forall img,
      for_each (Py.range 50)
               (fun i => create_hq_logo.gradient_iteration
                           (hq.center size) (hq.radius size) 50 i) img
      = (Returned tt, img))
  /\ (0 <= size ->
      create_hq_logo.create_hq_bsl_logo size w
      = (Raised (ValueError "x1 must be greater than or equal to x0"), w)).
Proof.
  intros Hsize. split.
  - apply for_each_skips. intros i img Hi. apply In_range in Hi.
    apply hq_iteration_skips, hq_current_radius_nonpositive; [|lia].
    rewrite hq.radius_eq. lia.
  - intros Hpos. apply hq.create_hq_bsl_logo_raises. lia.
Qed.

Lemma hq_no_ring_up_to_16_witness :
  for_each (Py.range 50)
           (fun i => create_hq_logo.gradient_iteration
                       (hq.center 16) (hq.radius 16) 50 i)
           (mkImage RGBA (64, 64) (0, 0, 0, 0) [])
  = (Returned tt, mkImage RGBA (64, 64) (0, 0, 0, 0) [])
  /\ create_hq_logo.create_hq_bsl_logo 16 bare_world
     = (Raised (ValueError "x1 must be greater than or equal to x0"), bare_world).
Proof.
  destruct (hq_no_ring_up_to_16 16 bare_world ltac:(lia)) as [Hloop Hrun].
  split; [apply Hloop | apply Hrun; lia].
Defined.

(** X7.  The rings of [create_hq_bsl_logo] are concentric and painted from
    the outside in: for a non-negative disk radius the first ring has the
    full radius and the computed radius never grows with the index. *)
Theorem hq_rings_shrink (c r i j : Z) :
  0 <= r -> 0 <= i <= j ->
  hq.current_radius r 0 = r
  /\ hq.current_radius r j <= hq.current_radius r i <= r
  /\ hq.ring c r i = disk (c, c) (hq.current_radius r i) (hq.ring_color i).
Proof.
  intros Hr Hij. unfold hq.current_radius. repeat split.
  - cbn. lia.
  - assert (i * r / 50 <= j * r / 50) by (apply Z.div_le_mono; nia). lia.
  - assert (0 <= i * r / 50) by (apply Z.div_pos; nia). lia.
Qed.

Lemma hq_rings_shrink_witness :
  hq.current_radius 224 0 = 224
  /\ hq.current_radius 224 49 <= hq.current_radius 224 10 <= 224.
Proof.
  destruct (hq_rings_shrink 256 224 10 49) as (H0 & H1 & _); [lia | lia |].
  exact (conj H0 H1).
Defined.

(** ** Colours *)

(** The colours a draw call passes (fill and outline). *)
Definition colors_of (op : draw_op) : list color :=
  let some (o : option color) := match o with Some c => [c] | None => [] end in
  match op with
  | Ellipse _ fill outline _ | Rectangle _ fill outline _
  | RoundedRectangle _ _ fill outline _ => (some fill ++ some outline)%list
  | Line _ fill _ | Text _ _ fill _ _ => some fill
  end.

(** A colour whose four channels fit in 8 bits. *)
Definition eight_bit (c : color) : Prop :=
  let '(r, g, b, a) := c in
  0 <= r <= 255 /\ 0 <= g <= 255 /\ 0 <= b <= 255 /\ 0 <= a <= 255.

Definition colors_eight_bit (img : image) : Prop :=
  Forall (fun op => Forall eight_bit (colors_of op)) (draw_ops img).

Lemma lerp_between from to i n :
  0 <= to <= from -> 0 <= i < n -> to <= lerp from to i n <= from.
Proof.
  intros Hc Hi. unfold lerp. rewrite Z.quot_div_nonneg by nia. split.
  - apply Z.div_le_lower_bound; nia.
  - apply Z.div_le_upper_bound; nia.
Qed.

Lemma ramp_between num i n :
  0 <= num -> 0 <= i < n -> 0 <= ramp num 1 i n <= num.
Proof.
  intros Hn Hi. rewrite ramp_div by lia. split.
  - apply Z.div_pos; nia.
  - apply Z.div_le_upper_bound; nia.
Qed.

Lemma hq_ring_color_eight_bit i : In i (Py.range 50) -> eight_bit (hq.ring_color i).
Proof.
  intros H. vm_compute in H.
  repeat (destruct H as [<- | H]; [vm_compute; intuition discriminate|]).
  contradiction.
Qed.

Ltac each_color :=
  repeat (constructor; cbn [colors_of eight_bit app]).

(** X8.  Every colour the three generators pass to the library has its four
    channels within 0..255, at every size for which they return: the
    interpolated ring colours stay between their two end colours and the
    ring alphas between 0 and 255. *)
Theorem colours_fit_eight_bits (size : Z) (w : world) :
  (32 <= size -> size * 4 <= max_side ->
   exists img,
     fst (create_hq_logo.create_hq_bsl_logo size w) = Returned img
     /\ colors_eight_bit img)
  /\ (4 <= size <= max_side ->
      exists img,
        fst (create_hq_logo.create_simplified_logo size w) = Returned img
        /\ colors_eight_bit img)
  /\ (32 <= size <= max_side ->
      exists img,
        fst (create_logo_png.create_bsl_logo size w) = Returned img
        /\ colors_eight_bit img).
Proof.
  unfold colors_eight_bit. split; [|split].
  - intros Hlo Hhi. rewrite hq.create_hq_bsl_logo_run by assumption.
    eexists. split; [reflexivity|].
    rewrite hq_result_draw_ops. unfold hq.ops.
    rewrite Forall_app, hq_gradient_filter. split.
    + apply Forall_map, Forall_forall. intros i Hi.
      apply filter_In in Hi. destruct Hi as [Hi _].
      unfold hq.ring, disk. cbn [colors_of app].
      constructor; [now apply hq_ring_color_eight_bit | constructor].
    + explicit_decoration. each_color; lia.
  - intros Hsize. rewrite simplified.create_simplified_logo_run by assumption.
    eexists. split; [reflexivity|].
    change (draw_ops (simplified.result size)) with (flat_composition size).
    unfold flat_composition. each_color; lia.
  - intros Hsize. rewrite png.create_bsl_logo_run by assumption.
    eexists. split; [reflexivity|].
    rewrite png_result_draw_ops. unfold png.ops.
    rewrite Forall_app. split.
    + unfold png.gradient. apply Forall_map, Forall_forall. intros i Hi.
      apply In_range in Hi.
      unfold png.ring, png.ring_color. cbn [colors_of app].
      rewrite png_alpha_exact, !png_channel_exact by lia.
      pose proof (lerp_between 206 139 i (png.radius size) ltac:(lia) Hi).
      pose proof (lerp_between 66 44 i (png.radius size) ltac:(lia) Hi).
      pose proof (lerp_between 43 27 i (png.radius size) ltac:(lia) Hi).
      pose proof (ramp_between 255 i (png.radius size) ltac:(lia) Hi).
      each_color; lia.
    + explicit_decoration. each_color; lia.
Qed.

Lemma colours_fit_eight_bits_witness :
  (exists img,
      fst (create_hq_logo.create_hq_bsl_logo 128 bare_world) = Returned img
      /\ colors_eight_bit img)
  /\ (exists img,
         fst (create_hq_logo.create_simplified_logo 24 bare_world) = Returned img
         /\ colors_eight_bit img)
  /\ (exists img,
         fst (create_logo_png.create_bsl_logo 256 bare_world) = Returned img
         /\ colors_eight_bit img).
Proof.
  destruct (colours_fit_eight_bits 128 bare_world) as (Hhq & _ & _).
  destruct (colours_fit_eight_bits 24 bare_world) as (_ & Hsimple & _).
  destruct (colours_fit_eight_bits 256 bare_world) as (_ & _ & Hpng).
  split; [|split].
  - apply Hhq; unfold max_side; lia.
  - apply Hsimple; unfold max_side; lia.
  - apply Hpng; unfold max_side; lia.
Defined.

(** X9.  When "arial.ttf" loads, both generators render the badge text with
    it at a fixed point size (40 on the 4x working canvas of
    [create_hq_bsl_logo], 10 in [create_bsl_logo]), whatever the requested
    image size from 32 on. *)
Theorem truetype_font_at_fixed_size (size : Z) (w : world) :
  truetype_fonts w "arial.ttf" = true ->
  (32 <= size -> size * 4 <= max_side ->
   exists img,
     fst (create_hq_logo.create_hq_bsl_logo size w) = Returned img
     /\ texts img = [("1C", Some (FreeTypeFont "arial.ttf" 40));
                     ("1C", Some (FreeTypeFont "arial.ttf" 40))])
  /\ (32 <= size <= max_side ->
      exists img,
        fst (create_logo_png.create_bsl_logo size w) = Returned img
        /\ texts img = [("1C", Some (FreeTypeFont "arial.ttf" 10))]).
Proof.
  intros H.
  assert (Hf : forall n, loaded_font w n = FreeTypeFont "arial.ttf" n)
    by (intros n; unfold loaded_font; now rewrite H).
  split.
  - intros Hlo Hhi. rewrite hq.create_hq_bsl_logo_run, Hf by assumption.
    eexists. split; [reflexivity|]. apply hq_texts.
  - intros Hsize. rewrite png.create_bsl_logo_run, Hf by assumption.
    eexists. split; [reflexivity|]. apply png_texts.
Qed.

(** Only "arial.ttf" loads; every path is writable. *)
Definition arial_world : world :=
  mkWorld (fun name => (name =? "arial.ttf")%string) (fun _ => true) 0 [] [].

Lemma truetype_font_at_fixed_size_witness :
  (exists img,
      fst (create_hq_logo.create_hq_bsl_logo 32 arial_world) = Returned img
      /\ texts img = [("1C", Some (FreeTypeFont "arial.ttf" 40));
                      ("1C", Some (FreeTypeFont "arial.ttf" 40))])
  /\ (exists img,
         fst (create_logo_png.create_bsl_logo 256 arial_world) = Returned img
         /\ texts img = [("1C", Some (FreeTypeFont "arial.ttf" 10))]).
Proof.
  split.
  - apply (proj1 (truetype_font_at_fixed_size 32 arial_world eq_refl));
      unfold max_side; lia.
  - apply (proj2 (truetype_font_at_fixed_size 256 arial_world eq_refl));
      unfold max_side; lia.
Defined.

(** * The brackets as drawn *)

(** Reflection about the vertical line through [c]. *)
Definition mirror (c : Z) (p : point) : point := (2 * c - fst p, snd p).

Lemma mirror_involutive c p : mirror c (mirror c p) = p.
Proof. destruct p as [x y]. unfold mirror; cbn [fst snd]. f_equal. lia. Qed.

Lemma line_eq a b c d a' b' c' d' col width :
  a = a' -> b = b' -> c = c' -> d = d' ->
  Line [(a, b); (c, d)] col width = Line [(a', b'); (c', d')] col width.
Proof. now intros -> -> -> ->. Qed.

Lemma hq_gradient_no_line c r xy fill width :
  ~ In (Line xy fill width) (hq.gradient c r).
Proof.
  rewrite hq_gradient_filter. intros H. apply in_map_iff in H.
  destruct H as (i & H & _). discriminate H.
Qed.

Lemma png_gradient_no_line c r xy fill width :
  ~ In (Line xy fill width) (png.gradient c r).
Proof.
  unfold png.gradient. intros H. apply in_map_iff in H.
  destruct H as (i & H & _). discriminate H.
Qed.

Ltac find_stroke :=
  repeat (first [ left; solve [apply line_eq; lia] | right ]).

Lemma hq_stroke_mirrored fnt c r p q :
  In (Line [p; q] (Some (255, 255, 255, 255)) (Some 12)) (hq.decoration fnt c r) ->
  In (Line [mirror c p; mirror c q] (Some (255, 255, 255, 255)) (Some 12))
     (hq.decoration fnt c r).
Proof.
  explicit_decoration. cbn [In]. intros H.
  repeat (destruct H as [H | H];
          [ try discriminate H;
            injection H as <- <-; unfold mirror; cbn [fst snd]; find_stroke | ]).
  contradiction.
Qed.

Lemma png_stroke_mirrored fnt c r p q :
  In (Line [p; q] (Some (255, 255, 255, 255)) (Some 3)) (png.decoration fnt c r) ->
  In (Line [mirror c p; mirror c q] (Some (255, 255, 255, 255)) (Some 3))
     (png.decoration fnt c r).
Proof.
  explicit_decoration. cbn [In]. intros H.
  repeat (destruct H as [H | H];
          [ try discriminate H;
            injection H as <- <-; unfold mirror; cbn [fst snd]; find_stroke | ]).
  contradiction.
Qed.

(** X10.  In the image either detailed generator returns (from size 32
    on), the bracket strokes (the solid white lines of width 12, resp. 3)
    are symmetric about the vertical line through the centre: a stroke from
    p to q is drawn exactly when the stroke from the reflection of p to the
    reflection of q is drawn. *)
Theorem bracket_strokes_symmetric (size : Z) (w : world) (p q : point) :
  (32 <= size -> size * 4 <= max_side ->
   exists img,
     fst (create_hq_logo.create_hq_bsl_logo size w) = Returned img
     /\ (In (Line [p; q] (Some (255, 255, 255, 255)) (Some 12)) (draw_ops img)
         <-> In (Line [mirror (hq.center size) p; mirror (hq.center size) q]
                      (Some (255, 255, 255, 255)) (Some 12)) (draw_ops img)))
  /\ (32 <= size <= max_side ->
      exists img,
        fst (create_logo_png.create_bsl_logo size w) = Returned img
        /\ (In (Line [p; q] (Some (255, 255, 255, 255)) (Some 3)) (draw_ops img)
            <-> In (Line [mirror (png.center size) p; mirror (png.center size) q]
                         (Some (255, 255, 255, 255)) (Some 3)) (draw_ops img))).
Proof.
  split.
  - intros Hlo Hhi. rewrite hq.create_hq_bsl_logo_run by assumption.
    eexists. split; [reflexivity|].
    rewrite hq_result_draw_ops. unfold hq.ops. rewrite !in_app_iff.
    split; intros [H | H];
      try (now apply hq_gradient_no_line in H); right.
    + now apply hq_stroke_mirrored.
    + apply hq_stroke_mirrored in H. now rewrite !mirror_involutive in H.
  - intros Hsize. rewrite png.create_bsl_logo_run by assumption.
    eexists. split; [reflexivity|].
    rewrite png_result_draw_ops. unfold png.ops. rewrite !in_app_iff.
    split; intros [H | H];
      try (now apply png_gradient_no_line in H); right.
    + now apply png_stroke_mirrored.
    + apply png_stroke_mirrored in H. now rewrite !mirror_involutive in H.
Qed.

Lemma bracket_strokes_symmetric_witness :
  exists img,
    fst (create_hq_logo.create_hq_bsl_logo 128 bare_world) = Returned img
    /\ (In (Line [(176, 156); (136, 156)] (Some (255, 255, 255, 255)) (Some 12))
            (draw_ops img)
        <-> In (Line [mirror (hq.center 128) (176, 156);
                      mirror (hq.center 128) (136, 156)]
                     (Some (255, 255, 255, 255)) (Some 12)) (draw_ops img)).
Proof.
  apply (proj1 (bracket_strokes_symmetric 128 bare_world (176, 156) (136, 156)));
    unfold max_side; lia.
Defined.

(** * Console output against the files written *)

(** How a plan ends and what it adds to the trace, given which paths are
    writable. *)
Fixpoint result_of (wr : string -> bool) (plan : list action) : outcome unit :=
  match plan with
  | [] => Returned tt
  | Say _ :: rest => result_of wr rest
  | Store f _ _ _ :: rest => if wr f then result_of wr rest else Raised (OSError f)
  end.

Fixpoint events_of (wr : string -> bool) (plan : list action) (w : world)
  : list event :=
  match plan with
  | [] => []
  | Say line :: rest => Printed line :: events_of wr rest (emit (Printed line) w)
  | Store f fmt o render :: rest =>
      if wr f
      then FileSaved f (render w) fmt o
             :: events_of wr rest (emit (FileSaved f (render w) fmt o) w)
      else [SaveFailed f]
  end.

Lemma perform_result plan :
  forall w,
    perform plan w
    = (result_of (writable w) plan,
       append_trace (events_of (writable w) plan w) w).
Proof.
  induction plan as [|a plan IH]; intros w.
  - cbn. unfold ret, append_trace. rewrite app_nil_r. now destruct w.
  - destruct a as [line | f fmt o render]; cbn [perform result_of events_of].
    + unfold bind at 1, print at 1. rewrite IH, append_trace_emit. reflexivity.
    + unfold bind at 1, Image_save at 1.
      destruct (writable w f) eqn:Hf.
      * rewrite IH, append_trace_emit. cbn [writable emit]. reflexivity.
      * reflexivity.
Qed.

(** The console lines of a stretch of trace, and the pixel size of each
    file saved in it. *)
Definition lines (evs : list event) : list string :=
  flat_map (fun e => match e with Printed l => [l] | _ => [] end) evs.

Definition saved_sizes (evs : list event) : list (string * (Z * Z)) :=
  flat_map (fun e => match e with
                     | FileSaved f img _ _ => [(f, Image_size img)]
                     | _ => []
                     end) evs.

Lemma append_inj_l (p a b : string) : (p ++ a = p ++ b)%string -> a = b.
Proof.
  induction p as [|ch p IH]; cbn; intros H; [exact H|].
  injection H as H. now apply IH.
Qed.

Lemma icon_size size w : Image_size (icon size w) = (size, size).
Proof.
  unfold icon. destruct (size <=? 24); [reflexivity | apply hq_result_size].
Qed.

(** Case analysis on which targets are writable, in the order the plan
    meets them. *)
Ltac by_first_failure wr :=
  repeat (cbn [result_of events_of lines saved saved_sizes flat_map app];
          match goal with
          | |- context [if wr ?t then _ else _] => destruct (wr t)
          end);
  cbn [result_of events_of lines saved saved_sizes flat_map app].

Ltac no_such_line H :=
  cbn [In] in H;
  repeat (destruct H as [H | H]; [vm_compute in H; discriminate H|]);
  try contradiction.

Ltac which_line H k :=
  cbn [In] in H;
  repeat (destruct H as [H | H];
          [ first [ apply append_inj_l in H; subst; k
                  | vm_compute in H; discriminate H ] | ]);
  try contradiction.

Ltac is_listed := cbn [In]; repeat (first [left; reflexivity | right]).

(** X11.  In every environment, whichever saves fail, the console output of
    [create_hq_logo.py] never runs ahead of the files: a line
    "  Saved: <file>" is printed only if <file> was saved, and the summary
    "Successfully created 6 high-quality icons:" is printed only if the run
    returns with all six files saved. *)
Theorem hq_console_is_truthful (w : world) :
  exists o evs,
    create_hq_logo.main w = (o, append_trace evs w)
    /\ (forall f, In ("  Saved: " ++ f)%string (lines evs) -> In f (saved evs))
    /\ (In (create_hq_logo.newline ++ "Successfully created 6 high-quality icons:")%string
           (lines evs) ->
        o = Returned tt /\ saved evs = hq_targets).
Proof.
  rewrite hq_main_plan, perform_result.
  do 2 eexists. split; [reflexivity|].
  generalize (writable w) as wr. intros wr.
  cbv beta iota zeta delta
      [hq_plan app flat_map map create_hq_logo.sizes icon_label icon_file fst snd].
  by_first_failure wr; (split; [intros f H; which_line H is_listed | intros H]);
    first [ split; reflexivity | no_such_line H ].
Qed.

(** X12.  In every environment, [create_logo_png.py] prints
    "Logo created: ..." only if the main logo was saved, and
    "Logo NxN created" only if the file of that size was saved. *)
Theorem png_console_is_truthful (w : world) :
  exists o evs,
    create_logo_png.main w = (o, append_trace evs w)
    /\ (In "Logo created: vscode-extension/images/bsl-analyzer-logo.png" (lines evs) ->
        In "vscode-extension/images/bsl-analyzer-logo.png" (saved evs))
    /\ (forall size,
           In size [32; 64; 256] ->
           In ("Logo " ++ Py.str size ++ "x" ++ Py.str size ++ " created")%string
              (lines evs) ->
           In ("vscode-extension/images/bsl-analyzer-logo-" ++ Py.str size ++ ".png")%string
              (saved evs)).
Proof.
  rewrite png_main_plan, perform_result.
  do 2 eexists. split; [reflexivity|].
  generalize (writable w) as wr. intros wr.
  cbv beta iota zeta delta [png_plan app flat_map].
  by_first_failure wr;
    (split; [intros H | intros size [<- | [<- | [<- | []]]] H]);
    first [ solve [is_listed] | no_such_line H ].
Qed.

(** X13.  Every file the two scripts save holds an image of the pixel size
    its name or console line stands for: in every environment the sizes of
    the files saved so far are an initial part of
    logo 128, small 16, medium 24, large 32, xlarge 48, icon 128 for
    [create_hq_logo.py] and of logo 128, logo-32 32, logo-64 64,
    logo-256 256 for [create_logo_png.py]. *)
Theorem saved_files_have_their_size (w : world) :
  (exists o evs n,
      create_hq_logo.main w = (o, append_trace evs w)
      /\ saved_sizes evs
         = firstn n
             [ ("vscode-extension/images/bsl-analyzer-logo.png", (128, 128));
               ("vscode-extension/images/bsl-analyzer-small.png", (16, 16));
               ("vscode-extension/images/bsl-analyzer-medium.png", (24, 24));
               ("vscode-extension/images/bsl-analyzer-large.png", (32, 32));
               ("vscode-extension/images/bsl-analyzer-xlarge.png", (48, 48));
               ("vscode-extension/images/bsl-analyzer-icon.png", (128, 128)) ]
      /\ (o = Returned tt -> n = 6%nat))
  /\ (exists o evs n,
         create_logo_png.main w = (o, append_trace evs w)
         /\ saved_sizes evs
            = firstn n
                [ ("vscode-extension/images/bsl-analyzer-logo.png", (128, 128));
                  ("vscode-extension/images/bsl-analyzer-logo-32.png", (32, 32));
                  ("vscode-extension/images/bsl-analyzer-logo-64.png", (64, 64));
                  ("vscode-extension/images/bsl-analyzer-logo-256.png", (256, 256)) ]
         /\ (o = Returned tt -> n = 4%nat)).
Proof.
  split.
  - rewrite hq_main_plan, perform_result.
    exists (result_of (writable w) hq_plan), (events_of (writable w) hq_plan w).
    generalize (writable w) as wr. intros wr.
    cbv beta iota zeta delta
        [hq_plan app flat_map map create_hq_logo.sizes icon_label icon_file fst snd].
    by_first_failure wr; rewrite ?hq_result_size, ?icon_size.
    + exists 6%nat. repeat split.
    + exists 5%nat. repeat split. discriminate.
    + exists 4%nat. repeat split. discriminate.
    + exists 3%nat. repeat split. discriminate.
    + exists 2%nat. repeat split. discriminate.
    + exists 1%nat. repeat split. discriminate.
    + exists 0%nat. repeat split. discriminate.
  - rewrite png_main_plan, perform_result.
    exists (result_of (writable w) png_plan), (events_of (writable w) png_plan w).
    generalize (writable w) as wr. intros wr.
    cbv beta iota zeta delta [png_plan app flat_map].
    by_first_failure wr; rewrite ?png_result_size.
    + exists 4%nat. repeat split.
    + exists 3%nat. repeat split. discriminate.
    + exists 2%nat. repeat split. discriminate.
    + exists 1%nat. repeat split. discriminate.
    + exists 0%nat. repeat split. discriminate.
Qed.

(** * Cost and targets *)

(** X14.  [create_bsl_logo] issues one ring per unit of radius: for every
    size from 32 on the image it returns has [size // 2 - 8] rings and 31
    further draw calls, so the work grows linearly with the size (where
    [create_hq_bsl_logo] always issues 92 calls). *)
Theorem png_draw_calls_grow_with_size (size : Z) (w : world) :
  32 <= size <= max_side ->
  exists img,
    fst (create_logo_png.create_bsl_logo size w) = Returned img
    /\ Z.of_nat (List.length (draw_ops img)) = size / 2 - 8 + 31.
Proof.
  intros Hsize. rewrite png.create_bsl_logo_run by assumption.
  eexists. split; [reflexivity|].
  rewrite png_result_draw_ops. unfold png.ops, png.gradient.
  rewrite length_app, length_map, length_range.
  change (List.length (png.decoration (loaded_font w 10) (png.center size)
                                      (png.radius size))) with 31%nat.
  unfold png.radius. div_lia.
Qed.

Lemma png_draw_calls_grow_with_size_witness :
  exists img,
    fst (create_logo_png.create_bsl_logo 256 bare_world) = Returned img
    /\ Z.of_nat (List.length (draw_ops img)) = 256 / 2 - 8 + 31.
Proof.
  apply (png_draw_calls_grow_with_size 256 bare_world). unfold max_side. lia.
Defined.

Lemma attempts_prefix wr plan :
  forall w, exists k, attempts (events_of wr plan w) = firstn k (targets plan).
Proof.
  induction plan as [|a plan IH]; intros w.
  - now exists 0%nat.
  - destruct a as [line | f fmt o render]; cbn [events_of].
    + destruct (IH (emit (Printed line) w)) as [k Hk]. now exists k.
    + destruct (wr f).
      * destruct (IH (emit (FileSaved f (render w) fmt o) w)) as [k Hk].
        exists (S k). unfold attempts in *. cbn [flat_map app targets firstn].
        now rewrite Hk.
      * now exists 1%nat.
Qed.

Lemma NoDup_firstn {A} (l : list A) k : NoDup l -> NoDup (firstn k l).
Proof.
  revert k. induction l as [|a l IH]; intros [|k] H; cbn; try constructor.
  - inversion H as [|? ? Hnot Hl]; subst. intros Hin. apply Hnot.
    rewrite <- (firstn_skipn k l). apply in_or_app. now left.
  - apply IH. now inversion H.
Qed.

Ltac all_distinct :=
  repeat (constructor; [cbn [In]; intuition discriminate|]); constructor.

(** X15.  In every environment, whichever saves fail, neither script tries
    to write the same file twice in one run.  The two scripts do share one
    target, "vscode-extension/images/bsl-analyzer-logo.png": each writes it
    first, so the one run last replaces the other's logo. *)
Theorem no_file_written_twice (w : world) :
  (exists o evs,
      create_hq_logo.main w = (o, append_trace evs w) /\ NoDup (attempts evs))
  /\ (exists o evs,
         create_logo_png.main w = (o, append_trace evs w) /\ NoDup (attempts evs))
  /\ (forall f, In f hq_targets /\ In f png_targets
                <-> f = "vscode-extension/images/bsl-analyzer-logo.png")
  /\ hd_error hq_targets = hd_error png_targets.
Proof.
  split; [|split; [|split]].
  - rewrite hq_main_plan, perform_result. do 2 eexists. split; [reflexivity|].
    destruct (attempts_prefix (writable w) hq_plan w) as [k ->].
    apply NoDup_firstn. change (targets hq_plan) with hq_targets.
    unfold hq_targets. all_distinct.
  - rewrite png_main_plan, perform_result. do 2 eexists. split; [reflexivity|].
    destruct (attempts_prefix (writable w) png_plan w) as [k ->].
    apply NoDup_firstn. change (targets png_plan) with png_targets.
    unfold png_targets. all_distinct.
  - intros f. unfold hq_targets, png_targets. cbn [In]. split.
    + intros [Hhq Hpng].
      repeat (destruct Hhq as [<- | Hhq]; [intuition discriminate|]).
      contradiction.
    + intros ->. split; now left.
  - reflexivity.
Qed.

(** X16.  In both generators the four connective strokes form a closed loop
    around the centre: each stroke ends where the next one starts, and the
    last ends where the first starts. *)
Theorem connections_form_a_closed_loop (center : Z) (k : nat) :
  (k < 4)%nat ->
  snd (nth k (create_hq_logo.connections center) ((0, 0), (0, 0)))
  = fst (nth (S k mod 4) (create_hq_logo.connections center) ((0, 0), (0, 0)))
  /\ snd (nth k (create_logo_png.connections center) ((0, 0), (0, 0)))
     = fst (nth (S k mod 4) (create_logo_png.connections center) ((0, 0), (0, 0))).
Proof.
  intros Hk.
  destruct k as [|[|[|[|k]]]]; [split; reflexivity .. | lia].
Qed.

Lemma connections_form_a_closed_loop_witness :
  snd (nth 3 (create_hq_logo.connections 256) ((0, 0), (0, 0)))
  = fst (nth 0 (create_hq_logo.connections 256) ((0, 0), (0, 0))).
Proof.
  apply (proj1 (connections_form_a_closed_loop 256 3 ltac:(lia))).
Defined.
